(** * Gut-Instincts: metrics evaluation engine and ensemble voter

    Shallow embedding of [src/training/calculate_metrics.py] and
    [src/inference/re_ensemble_inference.py].

    - Python [int] is [Z]; Python [float] is IEEE 754 binary64, taken from
      the Standard Library's [SpecFloat] at precision 53 and [emax] 1024.
    - Python [dict] is an association list in insertion order (the macro
      average sums floats in key order, so the order is part of the model).
    - Exceptions are an error type; code that can raise lives in the
      [result] monad. *)

From Stdlib Require Import ZArith List Ascii String Bool Lia.
From Stdlib Require Import Floats.SpecFloat.
From Stdlib Require Import Sorting.Permutation.
Import ListNotations.

Set Default Proof Using "Type".

Local Open Scope string_scope.
Local Open Scope list_scope.
Local Open Scope Z_scope.

(** ** Decidable equality (Python [==] on str, int and tuples of them) *)

Class EqDec (A : Type) : Type :=
  eq_dec : forall x y : A, {x = y} + {x <> y}.

#[export] Instance string_EqDec : EqDec string := string_dec.
#[export] Instance Z_EqDec : EqDec Z := Z.eq_dec.

#[export] Instance prod_EqDec {A B} `{EqDec A} `{EqDec B} : EqDec (A * B).
Proof.
  intros [a b] [a' b'].
  destruct (eq_dec a a') as [Ha | Ha];
    [destruct (eq_dec b b') as [Hb | Hb] |].
  - left; congruence.
  - right; congruence.
  - right; congruence.
Defined.

#[export] Instance list_EqDec {A} `{EqDec A} : EqDec (list A).
Proof. intros x y. apply (list_eq_dec eq_dec). Defined.

(** [x in l] for a Python list. *)
Definition py_in {A} `{EqDec A} (x : A) (l : list A) : bool :=
  if in_dec eq_dec x l then true else false.

(** ** Python dictionaries, in insertion order *)

Module Dict.
Section Ops.
Context {K V : Type} `{EqDec K}.

Definition t : Type := list (K * V).

(** [d[k]]; [None] stands for [KeyError]. *)
Fixpoint get (d : t) (k : K) : option V :=
  match d with
  | [] => None
  | (k', v) :: r => if eq_dec k k' then Some v else get r k
  end.

(** [k in d] *)
Definition mem (d : t) (k : K) : bool :=
  match get d k with Some _ => true | None => false end.

(** [d[k] = v]: an existing key keeps its position, a new key goes last. *)
Fixpoint set (d : t) (k : K) (v : V) : t :=
  match d with
  | [] => [(k, v)]
  | (k', v') :: r =>
      if eq_dec k k' then (k', v) :: r else (k', v') :: set r k v
  end.

(** [list(d.keys())] *)
Definition keys (d : t) : list K := map fst d.

(** [list(d.values())] *)
Definition values (d : t) : list V := map snd d.
End Ops.
End Dict.

(** ** Python floats: IEEE 754 binary64 *)

Module PyFloat.
Definition prec : Z := 53.
Definition emax : Z := 1024.

Definition float : Type := spec_float.

(** [float(z)] for an int [z], rounded to nearest even. *)
Definition of_Z (z : Z) : float := binary_normalize prec emax z 0 false.

Definition add : float -> float -> float := SFadd prec emax.
Definition mul : float -> float -> float := SFmul prec emax.
Definition div : float -> float -> float := SFdiv prec emax.
Definition ltb : float -> float -> bool := SFltb.

(** The literal [1e-10], i.e. [0x1.b7cdfd9d7bdbbp-34]. *)
Definition eps : float := S754_finite false 7737125245533627 (-86).
End PyFloat.

(** ** Exceptions and the [result] monad *)

(** Which field of a predicted item an illegal-label error names. *)
Inductive role : Type :=
| Label            (* "Illegal label" *)
| SubjectLabel     (* "Illegal subject entity label" *)
| ObjectLabel      (* "Illegal object entity label" *)
| Predicate.       (* "Illegal predicate" *)

Inductive exception : Type :=
| KeyError_field (pmid field : string)
    (* '{pmid} - Not able to find field "{field}" within article' *)
| KeyError_fields (pmid : string)
    (* "{pmid} - Not able to find one or more of the expected fields ..." *)
| NameError (pmid : string) (r : role) (value : string)
    (* "{pmid} - Illegal ... {value} for ..." *)
| KeyError (key : string)
    (* an uncaught dictionary lookup on a string key *)
| KeyError_label
    (* an uncaught lookup of a label in a per-label counter *)
| IndexError
| ZeroDivisionError
| ValueError (msg : string).

Definition result (A : Type) : Type := (exception + A)%type.

Definition raise {A} (e : exception) : result A := inl e.
Definition ok {A} (a : A) : result A := inr a.

Definition bind {A B} (m : result A) (k : A -> result B) : result B :=
  match m with
  | inl e => inl e
  | inr a => k a
  end.

Notation "x <- m ;; k" := (bind m (fun x => k))
  (at level 61, m at next level, right associativity).
Notation "' pat <- m ;; k" := (bind m (fun x => match x with pat => k end))
  (at level 61, pat pattern, m at next level, right associativity).

(** A [for] loop whose body may raise. *)
Fixpoint for_each {S X} (body : S -> X -> result S) (xs : list X) (s : S)
  : result S :=
  match xs with
  | [] => ok s
  | x :: r => s' <- body s x ;; for_each body r s'
  end.

(** ** Lists stored in a dictionary *)

(** [d[k].append(x)], where a missing [k] starts from the empty list (a
    [defaultdict(list)], or a key the code has just set to [[]]). *)
Definition append_at {K X} `{EqDec K} (d : list (K * list X)) (k : K) (x : X)
  : list (K * list X) :=
  Dict.set d k (match Dict.get d k with
                | Some l => l ++ [x]
                | None => [x]
                end).

(** ** Counters *)

Section Counters.
Context {K : Type} `{EqDec K}.

Definition counts : Type := Dict.t (K := K) (V := Z).

(** [if k not in d: d[k] = 0] followed by [d[k] += 1]. *)
Definition bump (d : counts) (k : K) : counts :=
  match Dict.get d k with
  | Some n => Dict.set d k (n + 1)
  | None => Dict.set d k (0 + 1)
  end.

(** [if k in d: d[k] += 1] *)
Definition incr_if_present (d : counts) (k : K) : counts :=
  match Dict.get d k with
  | Some n => Dict.set d k (n + 1)
  | None => d
  end.

(** [d[k] += 1], a [KeyError] when [k] is not a key. *)
Definition incr (d : counts) (k : K) : result counts :=
  match Dict.get d k with
  | Some n => ok (Dict.set d k (n + 1))
  | None => raise KeyError_label
  end.

(** [{k: 0 for k in ks}] *)
Definition zeros (ks : list K) : counts :=
  fold_left (fun d k => Dict.set d k 0) ks [].

(** [sum(d[k] for k in ks)] *)
Definition sum_over (d : counts) (ks : list K) : result Z :=
  for_each
    (fun acc k =>
       match Dict.get d k with
       | Some n => ok (acc + n)
       | None => raise KeyError_label
       end)
    ks 0.
End Counters.

Arguments counts K : clear implicits.

(** ** JSON documents

    The ground truth ([dev.json]) maps a document id to an article whose
    four annotation lists are read field by field (lines 66-73, 151-155,
    235-240, 324-331); the tuples below are what that reading builds.  A
    predicted article and a predicted item may lack any field: [None] is an
    absent key.  Field values have the JSON type of the data set (integer
    offsets, strings elsewhere), on which [int] and [str] change nothing.

    A dictionary read from JSON has distinct keys, so the loop
    [for pmid in predictions.keys()] with its lookup [predictions[pmid]] is
    the loop over the (id, article) pairs. *)

Definition entity_entry : Type := Z * Z * string * string * string.
  (* (start_idx, end_idx, location, text_span, label) *)
Definition binary_tag : Type := string * string.
  (* (subject_label, object_label) *)
Definition ternary_tag : Type := string * string * string.
  (* (subject_label, predicate, object_label) *)
Definition ternary_mention : Type := string * string * string * string * string.
  (* (subject_text_span, subject_label, predicate, object_text_span,
      object_label) *)

Record article : Type := {
  entities : list entity_entry;
  binary_tag_based_relations : list binary_tag;
  ternary_tag_based_relations : list ternary_tag;
  ternary_mention_based_relations : list ternary_mention
}.

Record raw_entity : Type := {
  start_idx : option Z;
  end_idx : option Z;
  location : option string;
  text_span : option string;
  label : option string
}.

Record relation : Type := {
  subject_text_span : option string;
  subject_label : option string;
  predicate : option string;
  object_text_span : option string;
  object_label : option string
}.

Record predicted_article : Type := {
  p_entities : option (list raw_entity);
  p_binary_tag_based_relations : option (list relation);
  p_ternary_tag_based_relations : option (list relation);
  p_ternary_mention_based_relations : option (list relation)
}.

(** [ground_truth.items()] and [predictions.items()], in file order. *)
Definition ground_truth : Type := list (string * article).
Definition predictions : Type := list (string * predicted_article).

(** ** The four task variants

    The four evaluation routines run the same loop; they differ in the
    article field they read, in the fields they read from an item, in the
    legality checks, and in the label they count under. *)

Record Variant : Type := {
  Raw : Type;
  Entry : Type;
  Key : Type;
  Entry_EqDec : EqDec Entry;
  Key_EqDec : EqDec Key;
  field : string;
  gold : article -> list Entry;
  predicted_items : predicted_article -> option (list Raw);
  (** the [try] block of an item: [None] is the [KeyError] it catches *)
  read : Raw -> option Entry;
  (** the first legality check that fails, given the entity labels and the
      relation labels (both already without their first element) *)
  illegal : list string -> list string -> Entry -> option (role * string);
  (** the label an item is counted under *)
  key_of : Entry -> Key
}.

#[export] Existing Instance Entry_EqDec.
#[export] Existing Instance Key_EqDec.

(** [NER_evaluation], lines 85-105. *)
Definition NER_variant : Variant := {|
  Raw := raw_entity;
  Entry := entity_entry;
  Key := string;
  Entry_EqDec := _;
  Key_EqDec := _;
  field := "entities";
  gold := entities;
  predicted_items := p_entities;
  read := fun e =>
    match start_idx e, end_idx e, location e, text_span e, label e with
    | Some s, Some n, Some loc, Some txt, Some lab => Some (s, n, loc, txt, lab)
    | _, _, _, _, _ => None
    end;
  illegal := fun entity_labels _ '(_, _, _, _, lab) =>
    if py_in lab entity_labels then None else Some (Label, lab);
  key_of := fun '(_, _, _, _, lab) => lab
|}.

(** [RE_evaluation_subtask_621], lines 167-184. *)
Definition RE621_variant : Variant := {|
  Raw := relation;
  Entry := binary_tag;
  Key := binary_tag;
  Entry_EqDec := _;
  Key_EqDec := _;
  field := "binary_tag_based_relations";
  gold := binary_tag_based_relations;
  predicted_items := p_binary_tag_based_relations;
  read := fun r =>
    match subject_label r, object_label r with
    | Some s, Some o => Some (s, o)
    | _, _ => None
    end;
  illegal := fun entity_labels _ '(s, o) =>
    if negb (py_in s entity_labels) then Some (SubjectLabel, s)
    else if negb (py_in o entity_labels) then Some (ObjectLabel, o)
    else None;
  key_of := fun l => l
|}.

(** [RE_evaluation_subtask_622], lines 252-273. *)
Definition RE622_variant : Variant := {|
  Raw := relation;
  Entry := ternary_tag;
  Key := ternary_tag;
  Entry_EqDec := _;
  Key_EqDec := _;
  field := "ternary_tag_based_relations";
  gold := ternary_tag_based_relations;
  predicted_items := p_ternary_tag_based_relations;
  read := fun r =>
    match subject_label r, predicate r, object_label r with
    | Some s, Some p, Some o => Some (s, p, o)
    | _, _, _ => None
    end;
  illegal := fun entity_labels relation_labels '(s, p, o) =>
    if negb (py_in s entity_labels) then Some (SubjectLabel, s)
    else if negb (py_in o entity_labels) then Some (ObjectLabel, o)
    else if negb (py_in p relation_labels) then Some (Predicate, p)
    else None;
  key_of := fun l => l
|}.

(** [RE_evaluation_subtask_623], lines 344-368. *)
Definition RE623_variant : Variant := {|
  Raw := relation;
  Entry := ternary_mention;
  Key := ternary_tag;
  Entry_EqDec := _;
  Key_EqDec := _;
  field := "ternary_mention_based_relations";
  gold := ternary_mention_based_relations;
  predicted_items := p_ternary_mention_based_relations;
  read := fun r =>
    match subject_text_span r, subject_label r, predicate r,
          object_text_span r, object_label r with
    | Some st, Some s, Some p, Some ot, Some o => Some (st, s, p, ot, o)
    | _, _, _, _, _ => None
    end;
  illegal := fun entity_labels relation_labels '(_, s, p, _, o) =>
    if negb (py_in s entity_labels) then Some (SubjectLabel, s)
    else if negb (py_in o entity_labels) then Some (ObjectLabel, o)
    else if negb (py_in p relation_labels) then Some (Predicate, p)
    else None;
  key_of := fun '(_, s, p, _, o) => (s, p, o)
|}.

Inductive task : Type := NER | RE621 | RE622 | RE623.

Definition variant (t : task) : Variant :=
  match t with
  | NER => NER_variant
  | RE621 => RE621_variant
  | RE622 => RE622_variant
  | RE623 => RE623_variant
  end.

(** ** The evaluation loop *)

Record counters (K : Type) : Type := {
  predicted : list (K * Z);
  true_positives : list (K * Z)
}.

Arguments predicted {K} c.
Arguments true_positives {K} c.

(** The six values the routines return, in the order of the tuple. *)
Record metrics : Type := {
  precision_macro : PyFloat.float;
  recall_macro : PyFloat.float;
  f1_macro : PyFloat.float;
  precision_micro : PyFloat.float;
  recall_micro : PyFloat.float;
  f1_micro : PyFloat.float
}.

(** [count / (total + 1e-10)] on two ints. *)
Definition smoothed_ratio (count total : Z) : PyFloat.float :=
  PyFloat.div (PyFloat.of_Z count)
              (PyFloat.add (PyFloat.of_Z total) PyFloat.eps).

(** [2 * ((p * r) / (p + r + 1e-10))] *)
Definition smoothed_f1 (p r : PyFloat.float) : PyFloat.float :=
  PyFloat.mul (PyFloat.of_Z 2)
    (PyFloat.div (PyFloat.mul p r)
                 (PyFloat.add (PyFloat.add p r) PyFloat.eps)).

(** The accumulators [precision, recall, f1, n] of the macro loop. *)
Record macro_sums : Type := {
  sum_precision : PyFloat.float;
  sum_recall : PyFloat.float;
  sum_f1 : PyFloat.float;
  n_labels : Z
}.

Section Engine.
Variable V : Variant.
(** [load_entity_labels()[1:]] and [load_relation_labels()[0][1:]] *)
Variables entity_labels relation_labels : list string.

Definition gold_index : Type := list (string * list (Entry V)).

(** One gold item: append its tuple to the document's list and count it
    under its label (lines 73-78). *)
Definition index_item (pmid : string)
    (st : gold_index * counts (Key V)) (entry : Entry V)
  : gold_index * counts (Key V) :=
  let '(idx, annotated) := st in
  (append_at idx pmid entry, bump annotated (key_of V entry)).

(** One ground-truth document (lines 63-78). *)
Definition index_article (st : gold_index * counts (Key V))
    (doc : string * article) : gold_index * counts (Key V) :=
  let '(pmid, a) := doc in
  let '(idx, annotated) := st in
  let idx := if Dict.mem idx pmid then idx else Dict.set idx pmid [] in
  fold_left (index_item pmid) (gold V a) (idx, annotated).

Definition index_ground_truth (gt : ground_truth)
  : gold_index * counts (Key V) :=
  fold_left index_article gt ([], []).

(** One predicted item (lines 90-107). *)
Definition score_item (idx : gold_index) (pmid : string)
    (c : counters (Key V)) (raw : Raw V) : result (counters (Key V)) :=
  match read V raw with
  | None => raise (KeyError_fields pmid)
  | Some entry =>
      match illegal V entity_labels relation_labels entry with
      | Some (r, value) => raise (NameError pmid r value)
      | None =>
          let label := key_of V entry in
          let pred := incr_if_present (predicted c) label in
          match Dict.get idx pmid with
          | None => raise (KeyError pmid)
          | Some gold_list =>
              if py_in entry gold_list then
                tp <- incr (true_positives c) label ;;
                ok {| predicted := pred; true_positives := tp |}
              else
                ok {| predicted := pred;
                      true_positives := true_positives c |}
          end
      end
  end.

(** One predicted document (lines 83-107). *)
Definition score_article (idx : gold_index) (c : counters (Key V))
    (doc : string * predicted_article) : result (counters (Key V)) :=
  let '(pmid, a) := doc in
  match predicted_items V a with
  | None => raise (KeyError_field pmid (field V))
  | Some items => for_each (score_item idx pmid) items c
  end.

(** Lines 80-107: both counters start at zero on the annotated labels. *)
Definition accumulate (idx : gold_index) (annotated : counts (Key V))
    (preds : predictions) : result (counters (Key V)) :=
  for_each (score_article idx) preds
    {| predicted := zeros (Dict.keys annotated);
       true_positives := zeros (Dict.keys annotated) |}.

Definition lookup (d : counts (Key V)) (k : Key V) : result Z :=
  match Dict.get d k with
  | Some n => ok n
  | None => raise KeyError_label
  end.

(** The body of the macro loop (lines 126-132). *)
Definition macro_step (annotated : counts (Key V)) (c : counters (Key V))
    (acc : macro_sums) (l : Key V) : result macro_sums :=
  tp <- lookup (true_positives c) l ;;
  pred <- lookup (predicted c) l ;;
  ann <- lookup annotated l ;;
  let current_precision := smoothed_ratio tp pred in
  let current_recall := smoothed_ratio tp ann in
  ok {| sum_precision := PyFloat.add (sum_precision acc) current_precision;
        sum_recall := PyFloat.add (sum_recall acc) current_recall;
        sum_f1 := PyFloat.add (sum_f1 acc)
                    (smoothed_f1 current_precision current_recall);
        n_labels := n_labels acc + 1 |}.

(** Lines 109-138.  Python raises [ZeroDivisionError] on a zero divisor.
    Every float divisor here is a sum of non-negative terms that ends in
    [+ 1e-10], which is never zero in binary64, so those divisions are the
    IEEE division; the divisor [n] is an int, and [n = 0] (no label in
    ground truth, the accumulators still the int 0) is the one case that
    raises. *)
Definition aggregate (annotated : counts (Key V)) (c : counters (Key V))
  : result metrics :=
  let labels := Dict.keys annotated in
  count_annotated <- sum_over annotated labels ;;
  count_predicted <- sum_over (predicted c) labels ;;
  count_true_positives <- sum_over (true_positives c) labels ;;
  let micro_precision := smoothed_ratio count_true_positives count_predicted in
  let micro_recall := smoothed_ratio count_true_positives count_annotated in
  let micro_f1 := smoothed_f1 micro_precision micro_recall in
  acc <- for_each (macro_step annotated c) labels
           {| sum_precision := PyFloat.of_Z 0;
              sum_recall := PyFloat.of_Z 0;
              sum_f1 := PyFloat.of_Z 0;
              n_labels := 0 |} ;;
  if n_labels acc =? 0 then raise ZeroDivisionError
  else
    let n := PyFloat.of_Z (n_labels acc) in
    ok {| precision_macro := PyFloat.div (sum_precision acc) n;
          recall_macro := PyFloat.div (sum_recall acc) n;
          f1_macro := PyFloat.div (sum_f1 acc) n;
          precision_micro := micro_precision;
          recall_micro := micro_recall;
          f1_micro := micro_f1 |}.

(** The per-label counters the routine holds when the loop over the
    predictions ends. *)
Definition count (gt : ground_truth) (preds : predictions)
  : result (counters (Key V)) :=
  let '(idx, annotated) := index_ground_truth gt in
  accumulate idx annotated preds.

Definition evaluation (gt : ground_truth) (preds : predictions)
  : result metrics :=
  let '(idx, annotated) := index_ground_truth gt in
  c <- accumulate idx annotated preds ;;
  aggregate annotated c.
End Engine.

(** The routines of [calculate_metrics.py].  Their arguments are what the
    loaders return: the entity labels, the first component of
    [load_relation_labels()], and [dev.json]. *)

Definition NER_evaluation (load_entity_labels : list string)
    (gt : ground_truth) (preds : predictions) : result metrics :=
  evaluation NER_variant (tl load_entity_labels) [] gt preds.

Definition RE_evaluation_subtask_621 (load_entity_labels : list string)
    (gt : ground_truth) (preds : predictions) : result metrics :=
  evaluation RE621_variant (tl load_entity_labels) [] gt preds.

Definition RE_evaluation_subtask_622
    (load_entity_labels load_relation_labels : list string)
    (gt : ground_truth) (preds : predictions) : result metrics :=
  evaluation RE622_variant (tl load_entity_labels) (tl load_relation_labels)
    gt preds.

Definition RE_evaluation_subtask_623
    (load_entity_labels load_relation_labels : list string)
    (gt : ground_truth) (preds : predictions) : result metrics :=
  evaluation RE623_variant (tl load_entity_labels) (tl load_relation_labels)
    gt preds.

(** The routine of task [t]; the relation labels are not loaded by the
    first two. *)
Definition run (t : task) (load_entity_labels load_relation_labels : list string)
    (gt : ground_truth) (preds : predictions) : result metrics :=
  match t with
  | NER => NER_evaluation load_entity_labels gt preds
  | RE621 => RE_evaluation_subtask_621 load_entity_labels gt preds
  | RE622 =>
      RE_evaluation_subtask_622 load_entity_labels load_relation_labels gt preds
  | RE623 =>
      RE_evaluation_subtask_623 load_entity_labels load_relation_labels gt preds
  end.

(** ** [compute_metrics]

    The inference collaborators are not part of the model: their output
    [inference_results] is an argument. *)

Record config : Type := {
  model_type : string;
  subtask : string
}.

(** What a call hands back to its caller: the metrics dictionary, or (line
    31) an exception object given to [return]. *)
Inductive returned : Type :=
| Metrics (m : metrics)
| ExceptionObject (e : exception).

Definition compute_metrics
    (load_entity_labels load_relation_labels : list string)
    (gt : ground_truth) (inference_results : predictions) (cfg : config)
  : result returned :=
  if String.eqb (model_type cfg) "re" then
    if String.eqb (subtask cfg) "6.2.1" then
      m <- RE_evaluation_subtask_621 load_entity_labels gt inference_results ;;
      ok (Metrics m)
    else if String.eqb (subtask cfg) "6.2.2" then
      m <- RE_evaluation_subtask_622 load_entity_labels load_relation_labels
             gt inference_results ;;
      ok (Metrics m)
    else if String.eqb (subtask cfg) "6.2.3" then
      m <- RE_evaluation_subtask_623 load_entity_labels load_relation_labels
             gt inference_results ;;
      ok (Metrics m)
    else ok (ExceptionObject (ValueError "No matching subtask"))
  else
    m <- NER_evaluation load_entity_labels gt inference_results ;;
    ok (Metrics m).

(** ** The ensemble voter ([EnsembleREInference]) *)

(** A vote key is a tuple that starts with the paper id ([key[0]]). *)
Definition vote_key : Type := string * list string.

(** One model's predictions, each paper seen through [content[subtask_name]]
    ([None]: the key is absent). *)
Definition model_predictions : Type := list (string * option (list relation)).

Definition relation_votes : Type := list (vote_key * list relation).
Definition ensemble_results : Type := list (string * list relation).

(** [math.ceil(n / 2)] *)
Definition math_ceil_half (n : Z) : Z := - ((- n) / 2).

(** [relation[name]] *)
Definition getitem (name : string) (v : option string) : result string :=
  match v with
  | Some s => ok s
  | None => raise (KeyError name)
  end.

Section Voter.
(** [self.subtask], and [subtask_string(self.subtask)] from [utils]. *)
Variables (the_subtask subtask_name : string).

(** Lines 24-38. *)
Definition relation_key (paper_id : string) (r : relation)
  : result vote_key :=
  if String.eqb the_subtask "6.2.1" then
    s <- getitem "subject_label" (subject_label r) ;;
    o <- getitem "object_label" (object_label r) ;;
    ok (paper_id, [s; o])
  else if String.eqb the_subtask "6.2.2" then
    s <- getitem "subject_label" (subject_label r) ;;
    p <- getitem "predicate" (predicate r) ;;
    o <- getitem "object_label" (object_label r) ;;
    ok (paper_id, [s; p; o])
  else if String.eqb the_subtask "6.2.3" then
    st <- getitem "subject_text_span" (subject_text_span r) ;;
    s <- getitem "subject_label" (subject_label r) ;;
    p <- getitem "predicate" (predicate r) ;;
    ot <- getitem "object_text_span" (object_text_span r) ;;
    o <- getitem "object_label" (object_label r) ;;
    ok (paper_id, [st; s; p; ot; o])
  else raise (ValueError ("Unsupported subtask: " ++ the_subtask)%string).

(** Lines 23-40 for one relation. *)
Definition cast_vote (paper_id : string) (rv : relation_votes)
    (r : relation) : result relation_votes :=
  key <- relation_key paper_id r ;;
  ok (append_at rv key r).

Definition vote_paper (rv : relation_votes)
    (doc : string * option (list relation)) : result relation_votes :=
  let '(paper_id, content) := doc in
  match content with
  | None => raise (KeyError subtask_name)
  | Some rels => for_each (cast_vote paper_id) rels rv
  end.

Definition vote_model (rv : relation_votes) (mp : model_predictions)
  : result relation_votes :=
  for_each vote_paper mp rv.

(** Lines 42-44 for one key. *)
Definition tally (n_models : Z) (res : ensemble_results)
    (kv : vote_key * list relation) : result ensemble_results :=
  let '(key, votes) := kv in
  if math_ceil_half n_models <=? Z.of_nat (List.length votes) then
    match votes with
    | [] => raise IndexError
    | first :: _ => ok (append_at res (fst key) first)
    end
  else ok res.

(** Lines 21-44, and the mapping of line 51 (with a [save_path] the same
    mapping is written to that file instead). *)
Definition perform_relation_level_inference (preds : list model_predictions)
  : result ensemble_results :=
  rv <- for_each vote_model preds [] ;;
  for_each (tally (Z.of_nat (List.length preds))) rv [].

(** *** Vocabulary for the statements about the voter *)

(** Every predicted relation with its paper id, in the order the loops
    meet them. *)
Definition proposals_of (mp : model_predictions) : list (string * relation) :=
  flat_map
    (fun doc : string * option (list relation) =>
       match snd doc with
       | Some rels => map (pair (fst doc)) rels
       | None => []
       end) mp.

Definition proposals (preds : list model_predictions)
  : list (string * relation) :=
  flat_map proposals_of preds.

Definition has_key (k : vote_key) (pr : string * relation) : bool :=
  match relation_key (fst pr) (snd pr) with
  | inr k' => if eq_dec k k' then true else false
  | inl _ => false
  end.

(** The relation objects filed under [k], first-encountered first. *)
Definition votes_for (k : vote_key) (preds : list model_predictions)
  : list relation :=
  map snd (filter (has_key k) (proposals preds)).

(** How many of the prediction sets contain a relation with key [k]. *)
Definition models_proposing (k : vote_key) (preds : list model_predictions)
  : nat :=
  List.length (filter (fun mp => existsb (has_key k) (proposals_of mp)) preds).

(** What the second loop adds for one paper: the first vote of every key
    of that paper that reaches the threshold, in key order. *)
Definition kept (n : Z) (rv : relation_votes) (paper_id : string)
  : list relation :=
  flat_map
    (fun kv : vote_key * list relation =>
       if (math_ceil_half n <=? Z.of_nat (List.length (snd kv))) &&
          (if eq_dec (fst (fst kv)) paper_id then true else false)
       then firstn 1 (snd kv) else []) rv.

(** The surviving relations of a paper. *)
Definition survivors (out : ensemble_results) (paper_id : string)
  : list relation :=
  match Dict.get out paper_id with
  | Some l => l
  | None => []
  end.
End Voter.

(** ** Vocabulary for the statements about the evaluation *)

(** [d[k]] read as a number, 0 where the counter has no such key. *)
Definition tally_of {K} `{EqDec K} (d : counts K) (k : K) : Z :=
  match Dict.get d k with
  | Some n => n
  | None => 0
  end.

(** The sum of all the counts of a counter. *)
Definition total {K} (d : list (K * Z)) : Z :=
  fold_left Z.add (Dict.values d) 0.

(** The ground-truth list of document [pmid]. *)
Definition gold_of (V : Variant) (gt : ground_truth) (pmid : string)
  : list (Entry V) :=
  flat_map
    (fun doc : string * article =>
       if eq_dec (fst doc) pmid then gold V (snd doc) else []) gt.

(** Every gold item of the ground truth, in file order. *)
Definition all_gold (V : Variant) (gt : ground_truth) : list (Entry V) :=
  flat_map (fun doc : string * article => gold V (snd doc)) gt.

(** The labels observed in ground truth, in first-seen order. *)
Definition gold_labels (V : Variant) (gt : ground_truth) : list (Key V) :=
  Dict.keys (snd (index_ground_truth V gt)).

(** Both counters of the loop have exactly the labels [labels] as keys. *)
Definition seeded {K} (labels : list K) (c : counters K) : Prop :=
  Dict.keys (predicted c) = labels /\ Dict.keys (true_positives c) = labels.

(** True positives never outnumber predictions, label by label. *)
Definition dominated {K} `{EqDec K} (c : counters K) : Prop :=
  forall l, tally_of (true_positives c) l <= tally_of (predicted c) l.

(** The state the loop over the predictions starts from. *)
Definition initial_counters (V : Variant) (gt : ground_truth)
  : counters (Key V) :=
  {| predicted := zeros (gold_labels V gt);
     true_positives := zeros (gold_labels V gt) |}.

(** The entity-label fields and the predicate fields of a predicted item. *)
Definition entity_label_fields (t : task) : Entry (variant t) -> list string :=
  match t with
  | NER => fun '(_, _, _, _, lab) => [lab]
  | RE621 => fun '(s, o) => [s; o]
  | RE622 => fun '(s, _, o) => [s; o]
  | RE623 => fun '(_, s, _, _, o) => [s; o]
  end.

Definition predicate_fields (t : task) : Entry (variant t) -> list string :=
  match t with
  | NER => fun _ => []
  | RE621 => fun _ => []
  | RE622 => fun '(_, p, _) => [p]
  | RE623 => fun '(_, _, p, _, _) => [p]
  end.

(** An item carries a label or a predicate outside the legal vocabulary. *)
Definition carries_illegal (t : task) (entity_labels relation_labels : list string)
    (entry : Entry (variant t)) : Prop :=
  (exists v, In v (entity_label_fields t entry) /\ ~ In v entity_labels) \/
  (exists v, In v (predicate_fields t entry) /\ ~ In v relation_labels).

(** The sum of a list of floats as the macro loop forms it, and their
    unweighted mean. *)
Definition float_sum (xs : list PyFloat.float) : PyFloat.float :=
  fold_left PyFloat.add xs (PyFloat.of_Z 0).

Definition float_mean (xs : list PyFloat.float) : PyFloat.float :=
  PyFloat.div (float_sum xs) (PyFloat.of_Z (Z.of_nat (List.length xs))).

Section PerLabel.
Context {K : Type} `{EqDec K}.
Variables (annotated : counts K) (c : counters K).

Definition label_precision (l : K) : PyFloat.float :=
  smoothed_ratio (tally_of (true_positives c) l) (tally_of (predicted c) l).

Definition label_recall (l : K) : PyFloat.float :=
  smoothed_ratio (tally_of (true_positives c) l) (tally_of annotated l).

Definition label_f1 (l : K) : PyFloat.float :=
  smoothed_f1 (label_precision l) (label_recall l).
End PerLabel.

(** ** Vocabulary for the statements about a whole run *)

(** The items of one predicted document that the [try] block reads, each
    with the document id. *)
Definition read_document (V : Variant) (pmid : string) (items : list (Raw V))
  : list (string * Entry V) :=
  flat_map
    (fun raw => match read V raw with
                | Some entry => [(pmid, entry)]
                | None => []
                end) items.

(** The same over all the predicted documents, in loop order. *)
Definition read_items (V : Variant) (preds : predictions)
  : list (string * Entry V) :=
  flat_map
    (fun doc : string * predicted_article =>
       match predicted_items V (snd doc) with
       | Some items => read_document V (fst doc) items
       | None => []
       end) preds.

(** The item is counted under label [l]. *)
Definition counted_under (V : Variant) (l : Key V) (x : string * Entry V)
  : bool :=
  if eq_dec (key_of V (snd x)) l then true else false.

(** The tuple of the item is in the ground-truth list of its document. *)
Definition in_gold (V : Variant) (gt : ground_truth) (x : string * Entry V)
  : bool :=
  py_in (snd x) (gold_of V gt (fst x)).

Definition how_many {X} (p : X -> bool) (xs : list X) : Z :=
  Z.of_nat (List.length (filter p xs)).

(** The gold items of the ground truth, each with its document id. *)
Definition gold_items (V : Variant) (gt : ground_truth)
  : list (string * Entry V) :=
  flat_map
    (fun doc : string * article => map (pair (fst doc)) (gold V (snd doc))) gt.

(** An item that is read in full and passes the legality checks. *)
Definition acceptable_item (V : Variant) (ents rels : list string)
    (raw : Raw V) : Prop :=
  exists entry, read V raw = Some entry /\ illegal V ents rels entry = None.

(** A predicted document that has the field of the variant, holds
    acceptable items only and, unless it has no item, is a document of the
    ground truth. *)
Definition acceptable_document (V : Variant) (ents rels : list string)
    (gt : ground_truth) (doc : string * predicted_article) : Prop :=
  exists items,
    predicted_items V (snd doc) = Some items /\
    Forall (acceptable_item V ents rels) items /\
    (items <> [] -> In (fst doc) (map fst gt)).

Definition acceptable (V : Variant) (ents rels : list string)
    (gt : ground_truth) (preds : predictions) : Prop :=
  Forall (acceptable_document V ents rels gt) preds.

(** The subtasks the code knows. *)
Definition supported (the_subtask : string) : Prop :=
  the_subtask = "6.2.1" \/ the_subtask = "6.2.2" \/ the_subtask = "6.2.3".

(** Every paper of every prediction set has its relation list, and every
    relation has the fields of the key. *)
Definition well_formed (the_subtask : string) (preds : list model_predictions)
  : Prop :=
  Forall
    (Forall
       (fun doc : string * option (list relation) =>
          exists rels,
            snd doc = Some rels /\
            Forall
              (fun r => exists k, relation_key the_subtask (fst doc) r = inr k)
              rels))
    preds.

(** The votes of a key are relations of that key, and there is one at
    least. *)
Definition votes_sound (the_subtask : string) (rv : relation_votes) : Prop :=
  forall k votes,
    In (k, votes) rv ->
    votes <> [] /\
    forall r, In r votes -> relation_key the_subtask (fst k) r = inr k.

(** Every paper of the mapping has a relation, and is a key once. *)
Definition results_sound (res : ensemble_results) : Prop :=
  NoDup (Dict.keys res) /\
  forall paper_id l, Dict.get res paper_id = Some l -> l <> [].

(** The number of spaces of a string. *)
Fixpoint spaces (s : string) : nat :=
  match s with
  | EmptyString => 0
  | String c r => if Ascii.ascii_dec c " "%char then S (spaces r) else spaces r
  end.

(** ** The n-gram rows ([n_gram_per_label], lines 22-35)

    The list [all_data] that the first loop of [n_gram_per_label] builds,
    before it is handed to the data-frame library.  [str.lower] is a
    parameter; a string is its sequence of bytes, and the separator is the
    one-byte string " ". *)

(** [s.split(" ")] *)
Fixpoint split_space (s : string) : list string :=
  match s with
  | EmptyString => [EmptyString]
  | String c r =>
      if Ascii.ascii_dec c " "%char then EmptyString :: split_space r
      else
        match split_space r with
        | w :: ws => String c w :: ws
        | [] => [String c EmptyString]
        end
  end.

(** [" ".join(ws)] *)
Fixpoint join_space (ws : list string) : string :=
  match ws with
  | [] => EmptyString
  | w :: rest =>
      match rest with
      | [] => w
      | _ :: _ => (w ++ String " "%char (join_space rest))%string
      end
  end.

(** [[words[i : i + n] for i in range(len(words) - n + 1)]] for [n >= 0]. *)
Definition windows {X} (n : nat) (words : list X) : list (list X) :=
  map (fun i => firstn n (skipn i words))
      (seq 0 (List.length words + 1 - n)).

Section NGram.
Variable lower : string -> string.

(** Lines 26-35 for one entity: the rows (ngram, label).  The label is
    looked up once per n-gram, so an entity without n-gram never misses
    it. *)
Definition entity_rows (n : nat) (entity : raw_entity)
  : result (list (string * string)) :=
  match text_span entity with
  | None => raise (KeyError "text_span")
  | Some text =>
      let words := map lower (split_space text) in
      for_each
        (fun rows ngram =>
           match label entity with
           | None => raise (KeyError "label")
           | Some lab => ok (rows ++ [(join_space ngram, lab)])
           end)
        (windows n words) []
  end.

(** Lines 22-35: the rows of all the entities of all the files. *)
Definition n_gram_rows (n : nat)
    (data : list (list (string * option (list raw_entity))))
  : result (list (string * string)) :=
  for_each
    (fun all_data file_data =>
       for_each
         (fun all_data (doc : string * option (list raw_entity)) =>
            match snd doc with
            | None => raise (KeyError "entities")
            | Some ents =>
                for_each
                  (fun all_data entity =>
                     rows <- entity_rows n entity ;;
                     ok (all_data ++ rows))
                  ents all_data
            end)
         file_data all_data)
    data [].
End NGram.

(** ** Sample documents

    A one-document ground truth and the predicted items used to run the
    routines on concrete inputs. *)

Module Sample.
Definition entity_vocabulary : list string := ["O"; "Gene"; "Disease"].
Definition relation_vocabulary : list string := ["none"; "affects"].

Definition gene : entity_entry := (0, 5, "title", "BRCA1", "Gene").

(** Document "D1": one entity and one relation, seen in its four views. *)
Definition article_D1 : article :=
  {| entities := [gene];
     binary_tag_based_relations := [("Gene", "Disease")];
     ternary_tag_based_relations := [("Gene", "affects", "Disease")];
     ternary_mention_based_relations :=
       [("BRCA1", "Gene", "affects", "cancer", "Disease")] |}.

Definition gt_D1 : ground_truth := [("D1", article_D1)].

Definition raw_gene : raw_entity :=
  {| start_idx := Some 0; end_idx := Some 5; location := Some "title";
     text_span := Some "BRCA1"; label := Some "Gene" |}.

(** An entity whose label is not in the vocabulary. *)
Definition raw_xyz : raw_entity :=
  {| start_idx := Some 0; end_idx := Some 5; location := Some "title";
     text_span := Some "BRCA1"; label := Some "XYZ" |}.

Definition with_entities (es : list raw_entity) : predicted_article :=
  {| p_entities := Some es;
     p_binary_tag_based_relations := None;
     p_ternary_tag_based_relations := None;
     p_ternary_mention_based_relations := None |}.

Definition with_binary (rs : list relation) : predicted_article :=
  {| p_entities := None;
     p_binary_tag_based_relations := Some rs;
     p_ternary_tag_based_relations := None;
     p_ternary_mention_based_relations := None |}.

Definition tags (s o : string) : relation :=
  {| subject_text_span := None; subject_label := Some s; predicate := None;
     object_text_span := None; object_label := Some o |}.
End Sample.

(** * Facts *)

Set Implicit Arguments.

(** ** The [result] monad and [for_each] *)

Lemma bind_inr {A B} (m : result A) (k : A -> result B) (b : B) :
  bind m k = inr b -> exists a, m = inr a /\ k a = inr b.
Proof.
  destruct m as [e | a]; simpl; intros Hb.
  - discriminate.
  - exists a. split; [reflexivity | exact Hb].
Qed.

Lemma for_each_app {S X} (body : S -> X -> result S) (xs ys : list X) (s : S) :
  for_each body (xs ++ ys) s = bind (for_each body xs s) (for_each body ys).
Proof.
  revert s. induction xs as [| x xs IH]; intros s; simpl.
  - reflexivity.
  - destruct (body s x) as [e | s']; simpl; [reflexivity | apply IH].
Qed.

(** A property kept by every step that returns is kept by the loop. *)
Lemma for_each_invariant {S X} (P : S -> Prop) (body : S -> X -> result S) :
  (forall s x s', P s -> body s x = inr s' -> P s') ->
  forall xs s s', P s -> for_each body xs s = inr s' -> P s'.
Proof.
  intros Hstep xs. induction xs as [| x xs IH]; simpl; intros s s' Hs Hrun.
  - injection Hrun as <-. exact Hs.
  - apply bind_inr in Hrun as (s1 & H1 & H2).
    eapply IH; [eapply Hstep; eassumption | exact H2].
Qed.

(** A loop that meets a raising step after steps that return raises. *)
Lemma for_each_raises {S X} (body : S -> X -> result S)
    (xs ys : list X) (x : X) (s s1 : S) (e : exception) :
  for_each body xs s = inr s1 ->
  body s1 x = inl e ->
  for_each body (xs ++ x :: ys) s = inl e.
Proof.
  intros Hxs Hx. rewrite for_each_app, Hxs. simpl. rewrite Hx. reflexivity.
Qed.

(** If every step raises on [x] whatever the state, a loop over a list that
    holds [x] does not return. *)
Lemma for_each_stuck {S X} (body : S -> X -> result S) (x : X) :
  (forall s, exists e, body s x = inl e) ->
  forall xs s, In x xs -> exists e, for_each body xs s = inl e.
Proof.
  intros Hx xs. induction xs as [| y xs IH]; simpl; intros s Hin.
  - contradiction.
  - destruct (body s y) as [e | s'] eqn:Hy; simpl.
    + exists e. reflexivity.
    + destruct Hin as [-> | Hin].
      * destruct (Hx s) as (e & He). congruence.
      * apply IH. exact Hin.
Qed.

(** ** Dictionaries *)

Section DictFacts.
Context {K V : Type} `{EqDec K}.
Implicit Types (d : list (K * V)) (k : K) (v : V).

Lemma get_set_same d k v : Dict.get (Dict.set d k v) k = Some v.
Proof.
  induction d as [| [k' v'] r IH]; simpl.
  - destruct (eq_dec k k); [reflexivity | contradiction].
  - destruct (eq_dec k k') as [E | N]; simpl.
    + destruct (eq_dec k k'); [reflexivity | contradiction].
    + destruct (eq_dec k k'); [contradiction | exact IH].
Qed.

Lemma get_set_other d k k' v :
  k <> k' -> Dict.get (Dict.set d k v) k' = Dict.get d k'.
Proof.
  intros N. induction d as [| [k0 v0] r IH]; simpl.
  - destruct (eq_dec k' k); [congruence | reflexivity].
  - destruct (eq_dec k k0) as [E | N0]; simpl.
    + subst k0. destruct (eq_dec k' k); [congruence | reflexivity].
    + destruct (eq_dec k' k0); [reflexivity | exact IH].
Qed.

Lemma get_None_keys d k : Dict.get d k = None <-> ~ In k (Dict.keys d).
Proof.
  induction d as [| [k' v'] r IH]; simpl.
  - tauto.
  - destruct (eq_dec k k') as [E | N].
    + split; [discriminate | intros Hn; exfalso; apply Hn; left; congruence].
    + rewrite IH. split.
      * intros Hr [E | Hin]; [congruence | tauto].
      * tauto.
Qed.

Lemma get_Some_keys d k v : Dict.get d k = Some v -> In k (Dict.keys d).
Proof.
  intros Hg. destruct (in_dec eq_dec k (Dict.keys d)) as [Hin | Hn].
  - exact Hin.
  - apply get_None_keys in Hn. congruence.
Qed.

Lemma keys_get d k : In k (Dict.keys d) -> exists v, Dict.get d k = Some v.
Proof.
  intros Hin. destruct (Dict.get d k) as [v |] eqn:Hg.
  - exists v. reflexivity.
  - apply get_None_keys in Hg. contradiction.
Qed.

Lemma keys_set_present d k v :
  In k (Dict.keys d) -> Dict.keys (Dict.set d k v) = Dict.keys d.
Proof.
  induction d as [| [k' v'] r IH]; simpl; intros Hin.
  - contradiction.
  - destruct (eq_dec k k') as [E | N]; simpl.
    + reflexivity.
    + f_equal. apply IH. destruct Hin; [congruence | assumption].
Qed.

Lemma keys_set_absent d k v :
  ~ In k (Dict.keys d) -> Dict.keys (Dict.set d k v) = Dict.keys d ++ [k].
Proof.
  induction d as [| [k' v'] r IH]; simpl; intros Hn.
  - reflexivity.
  - destruct (eq_dec k k') as [E | N]; simpl.
    + exfalso. apply Hn. left. congruence.
    + f_equal. apply IH. tauto.
Qed.

Lemma in_keys_set d k v k' :
  In k' (Dict.keys (Dict.set d k v)) <-> k' = k \/ In k' (Dict.keys d).
Proof.
  destruct (in_dec eq_dec k (Dict.keys d)) as [Hin | Hn].
  - rewrite keys_set_present by exact Hin. split; [tauto |].
    intros [-> | Hk]; assumption.
  - rewrite keys_set_absent by exact Hn. rewrite in_app_iff. simpl.
    split; intros Hk; intuition congruence.
Qed.

Lemma NoDup_keys_set d k v :
  NoDup (Dict.keys d) -> NoDup (Dict.keys (Dict.set d k v)).
Proof.
  intros Hnd. destruct (in_dec eq_dec k (Dict.keys d)) as [Hin | Hn].
  - rewrite keys_set_present by exact Hin. exact Hnd.
  - rewrite keys_set_absent by exact Hn.
    apply NoDup_app; [exact Hnd | constructor; [simpl; tauto | constructor] |].
    intros x Hx [<- | []]. exact (Hn Hx).
Qed.

(** With distinct keys, reading every key in order reads every value. *)
Lemma get_keys_values d :
  NoDup (Dict.keys d) ->
  map (Dict.get d) (Dict.keys d) = map Some (Dict.values d).
Proof.
  induction d as [| [k v] r IH]; simpl; intros Hnd.
  - reflexivity.
  - inversion Hnd as [| ? ? Hk Hr]; subst.
    destruct (eq_dec k k) as [_ | N]; [| contradiction]. f_equal.
    rewrite <- (IH Hr). apply map_ext_in. intros k' Hk'.
    destruct (eq_dec k' k) as [E | _]; [subst; contradiction | reflexivity].
Qed.
End DictFacts.

(** ** Counters *)

Section CounterFacts.
Context {K : Type} `{EqDec K}.
Implicit Types (d : counts K) (k l : K).

Lemma keys_bump d k : Dict.keys (bump d k) =
  if in_dec eq_dec k (Dict.keys d) then Dict.keys d else Dict.keys d ++ [k].
Proof.
  unfold bump. destruct (in_dec eq_dec k (Dict.keys d)) as [Hin | Hn].
  - destruct (Dict.get d k); apply keys_set_present; exact Hin.
  - destruct (Dict.get d k); apply keys_set_absent; exact Hn.
Qed.

Lemma in_keys_bump d k l :
  In l (Dict.keys (bump d k)) <-> l = k \/ In l (Dict.keys d).
Proof. unfold bump. destruct (Dict.get d k); apply in_keys_set. Qed.

Lemma NoDup_keys_bump d k :
  NoDup (Dict.keys d) -> NoDup (Dict.keys (bump d k)).
Proof. unfold bump. destruct (Dict.get d k); apply NoDup_keys_set. Qed.

Lemma in_keys_bumps (ks : list K) d l :
  In l (Dict.keys (fold_left bump ks d)) <-> In l ks \/ In l (Dict.keys d).
Proof.
  revert d. induction ks as [| k ks IH]; intros d; simpl.
  - tauto.
  - rewrite IH, in_keys_bump. intuition congruence.
Qed.

Lemma NoDup_keys_bumps (ks : list K) d :
  NoDup (Dict.keys d) -> NoDup (Dict.keys (fold_left bump ks d)).
Proof.
  revert d. induction ks as [| k ks IH]; intros d Hd; simpl.
  - exact Hd.
  - apply IH, NoDup_keys_bump, Hd.
Qed.

Lemma keys_incr_if_present d k :
  Dict.keys (incr_if_present d k) = Dict.keys d.
Proof.
  unfold incr_if_present. destruct (Dict.get d k) as [n |] eqn:Hg.
  - apply keys_set_present. eapply get_Some_keys, Hg.
  - reflexivity.
Qed.

Lemma keys_incr d k d' : incr d k = inr d' -> Dict.keys d' = Dict.keys d.
Proof.
  unfold incr. destruct (Dict.get d k) as [n |] eqn:Hg; intros Hi.
  - injection Hi as <-. apply keys_set_present. eapply get_Some_keys, Hg.
  - discriminate.
Qed.

Lemma tally_incr_if_present d k l :
  tally_of (incr_if_present d k) l =
  if eq_dec k l then
    if in_dec eq_dec k (Dict.keys d) then tally_of d l + 1 else tally_of d l
  else tally_of d l.
Proof.
  unfold incr_if_present, tally_of.
  destruct (Dict.get d k) as [n |] eqn:Hg.
  - destruct (eq_dec k l) as [<- | N].
    + rewrite get_set_same, Hg.
      destruct (in_dec eq_dec k (Dict.keys d)) as [_ | Hn]; [reflexivity |].
      exfalso. apply Hn. eapply get_Some_keys, Hg.
    + rewrite get_set_other by exact N. reflexivity.
  - destruct (eq_dec k l) as [<- | N]; [| reflexivity].
    destruct (in_dec eq_dec k (Dict.keys d)) as [Hin | _]; [| reflexivity].
    apply get_None_keys in Hg. contradiction.
Qed.

Lemma tally_incr d k d' l :
  incr d k = inr d' ->
  tally_of d' l = if eq_dec k l then tally_of d l + 1 else tally_of d l.
Proof.
  unfold incr, tally_of. destruct (Dict.get d k) as [n |] eqn:Hg; intros Hi.
  - injection Hi as <-. destruct (eq_dec k l) as [<- | N].
    + rewrite get_set_same, Hg. reflexivity.
    + rewrite get_set_other by exact N. reflexivity.
  - discriminate.
Qed.

Lemma incr_returns d k :
  In k (Dict.keys d) -> exists d', incr d k = inr d'.
Proof.
  intros Hin. apply keys_get in Hin as (n & Hg). unfold incr. rewrite Hg.
  eexists. reflexivity.
Qed.

Lemma zeros_from_get (ks : list K) d l :
  Dict.get (fold_left (fun d k => Dict.set d k 0) ks d) l =
  if in_dec eq_dec l ks then Some 0 else Dict.get d l.
Proof.
  revert d. induction ks as [| k ks IH]; intros d; simpl.
  - reflexivity.
  - rewrite IH. destruct (in_dec eq_dec l ks) as [Hin | Hn].
    + destruct (eq_dec k l); reflexivity.
    + destruct (eq_dec k l) as [<- | N].
      * apply get_set_same.
      * apply get_set_other. exact N.
Qed.

Lemma zeros_from_keys (ks : list K) d :
  NoDup (Dict.keys d ++ ks) ->
  Dict.keys (fold_left (fun d k => Dict.set d k 0) ks d) = Dict.keys d ++ ks.
Proof.
  revert d. induction ks as [| k ks IH]; intros d Hnd; simpl.
  - symmetry. apply app_nil_r.
  - assert (Hk : ~ In k (Dict.keys d)).
    { intros Hin. apply NoDup_remove_2 in Hnd. apply Hnd.
      apply in_or_app. left. exact Hin. }
    rewrite IH; rewrite keys_set_absent by exact Hk.
    + rewrite <- app_assoc. reflexivity.
    + rewrite <- app_assoc. exact Hnd.
Qed.

Lemma keys_zeros (ks : list K) : NoDup ks -> Dict.keys (zeros ks) = ks.
Proof. intros Hnd. unfold zeros. rewrite zeros_from_keys; [reflexivity | exact Hnd]. Qed.

Lemma tally_zeros (ks : list K) l : tally_of (zeros ks) l = 0.
Proof.
  unfold tally_of, zeros. rewrite zeros_from_get.
  destruct (in_dec eq_dec l ks); reflexivity.
Qed.

(** Summing a counter over its own keys gives its total. *)
Lemma sum_over_from d (ks : list K) (vs : list Z) (acc : Z) :
  map (Dict.get d) ks = map Some vs ->
  for_each
    (fun a k =>
       match Dict.get d k with
       | Some n => ok (a + n)
       | None => raise KeyError_label
       end) ks acc = inr (fold_left Z.add vs acc).
Proof.
  revert vs acc. induction ks as [| k ks IH]; intros vs acc Hm; simpl in *.
  - destruct vs; [reflexivity | discriminate].
  - destruct vs as [| v vs]; [discriminate |]. injection Hm as Hk Hm.
    rewrite Hk. simpl. apply IH. exact Hm.
Qed.

Lemma sum_over_keys d (ks : list K) :
  NoDup ks -> Dict.keys d = ks -> sum_over d ks = inr (total d).
Proof.
  intros Hnd <-. unfold sum_over, total. apply sum_over_from.
  apply get_keys_values. exact Hnd.
Qed.
End CounterFacts.

(** ** The ground-truth index *)

Section ListDictFacts.
Context {K X : Type} `{EqDec K}.
Implicit Types (d : list (K * list X)) (k : K).

Lemma get_append_at_same d k (x : X) :
  Dict.get (append_at d k x) k =
  Some (match Dict.get d k with Some l => l ++ [x] | None => [x] end).
Proof. unfold append_at. apply get_set_same. Qed.

Lemma get_append_at_other d k k' (x : X) :
  k <> k' -> Dict.get (append_at d k x) k' = Dict.get d k'.
Proof. intros N. unfold append_at. apply get_set_other. exact N. Qed.

Lemma get_appends_same (xs : list X) d k l0 :
  Dict.get d k = Some l0 ->
  Dict.get (fold_left (fun d x => append_at d k x) xs d) k = Some (l0 ++ xs).
Proof.
  revert d l0. induction xs as [| x xs IH]; intros d l0 Hg; simpl.
  - rewrite app_nil_r. exact Hg.
  - rewrite (IH _ (l0 ++ [x])).
    + rewrite <- app_assoc. reflexivity.
    + rewrite get_append_at_same, Hg. reflexivity.
Qed.

Lemma get_appends_other (xs : list X) d k k' :
  k <> k' ->
  Dict.get (fold_left (fun d x => append_at d k x) xs d) k' = Dict.get d k'.
Proof.
  intros N. revert d. induction xs as [| x xs IH]; intros d; simpl.
  - reflexivity.
  - rewrite IH. apply get_append_at_other. exact N.
Qed.
End ListDictFacts.

Section IndexFacts.
Variable V : Variant.
Implicit Types (gt : ground_truth) (pmid : string).

Lemma index_items_split pmid (es : list (Entry V)) idx (ann : counts (Key V)) :
  fold_left (index_item V pmid) es (idx, ann) =
  (fold_left (fun d x => append_at d pmid x) es idx,
   fold_left bump (map (key_of V) es) ann).
Proof.
  revert idx ann. induction es as [| e es IH]; intros idx ann; simpl.
  - reflexivity.
  - apply IH.
Qed.

Lemma index_from_annotated gt idx (ann : counts (Key V)) :
  snd (fold_left (index_article V) gt (idx, ann)) =
  fold_left bump (map (key_of V) (all_gold V gt)) ann.
Proof.
  revert idx ann. induction gt as [| [pmid a] gt IH]; intros idx ann; simpl.
  - reflexivity.
  - rewrite index_items_split, IH. unfold all_gold. simpl.
    rewrite map_app, fold_left_app. reflexivity.
Qed.

Lemma index_from_get gt idx (ann : counts (Key V)) pmid :
  Dict.get (fst (fold_left (index_article V) gt (idx, ann))) pmid =
  match Dict.get idx pmid with
  | Some l0 => Some (l0 ++ gold_of V gt pmid)
  | None =>
      if in_dec eq_dec pmid (map fst gt) then Some (gold_of V gt pmid)
      else None
  end.
Proof.
  revert idx ann. induction gt as [| [p a] gt IH]; intros idx ann.
  - simpl. destruct (Dict.get idx pmid); [rewrite app_nil_r |]; reflexivity.
  - cbn [fold_left index_article]. rewrite index_items_split, IH.
    unfold gold_of. cbn [flat_map fst snd map]. fold (gold_of V gt pmid).
    set (idx1 := if Dict.mem idx p then idx else Dict.set idx p []).
    destruct (eq_dec p pmid) as [-> | N].
    + assert (H1 : exists l1, Dict.get idx1 pmid = Some l1 /\
                   match Dict.get idx pmid with
                   | Some l0 => l1 = l0 | None => l1 = [] end).
      { unfold idx1, Dict.mem. destruct (Dict.get idx pmid) as [l0 |] eqn:Hg.
        - exists l0. split; [exact Hg | reflexivity].
        - exists []. split; [apply get_set_same | reflexivity]. }
      destruct H1 as (l1 & Hl1 & Hrel).
      rewrite (get_appends_same _ _ _ Hl1).
      destruct (Dict.get idx pmid) as [l0 |]; subst l1.
      * rewrite app_assoc. reflexivity.
      * destruct (in_dec eq_dec pmid (pmid :: map fst gt)) as [_ | Hn];
          [reflexivity | exfalso; apply Hn; left; reflexivity].
    + rewrite get_appends_other by exact N.
      assert (H1 : Dict.get idx1 pmid = Dict.get idx pmid).
      { unfold idx1. destruct (Dict.mem idx p); [reflexivity |].
        apply get_set_other. exact N. }
      rewrite H1. destruct (Dict.get idx pmid) as [l0 |]; [reflexivity |].
      destruct (in_dec eq_dec pmid (map fst gt)) as [Hin | Hn];
        destruct (in_dec eq_dec pmid (p :: map fst gt)) as [Hin' | Hn'];
        try reflexivity.
      * exfalso. apply Hn'. right. exact Hin.
      * exfalso. destruct Hin' as [E | Hin']; [exact (N E) | exact (Hn Hin')].
Qed.

(** The index holds, for every document of the ground truth, that
    document's list; it has no other key. *)
Lemma index_get gt pmid :
  Dict.get (fst (index_ground_truth V gt)) pmid =
  if in_dec eq_dec pmid (map fst gt) then Some (gold_of V gt pmid) else None.
Proof. unfold index_ground_truth. rewrite index_from_get. reflexivity. Qed.

Lemma gold_of_unique gt pmid a :
  NoDup (map fst gt) -> In (pmid, a) gt -> gold_of V gt pmid = gold V a.
Proof.
  induction gt as [| [p b] gt IH]; simpl; intros Hnd Hin.
  - contradiction.
  - inversion Hnd as [| ? ? Hp Hr]; subst. unfold gold_of. simpl.
    fold (gold_of V gt pmid). destruct Hin as [E | Hin].
    + injection E as -> ->.
      destruct (eq_dec pmid pmid) as [_ | N]; [| contradiction].
      assert (Hnil : gold_of V gt pmid = []).
      { clear -Hp. induction gt as [| [q c] gt IH]; [reflexivity |].
        unfold gold_of. simpl. fold (gold_of V gt pmid).
        destruct (eq_dec q pmid) as [-> | _].
        - exfalso. apply Hp. left. reflexivity.
        - apply IH. intros Hin. apply Hp. right. exact Hin. }
      rewrite Hnil. apply app_nil_r.
    + destruct (eq_dec p pmid) as [-> | _].
      * exfalso. apply Hp. apply (in_map fst) in Hin. exact Hin.
      * apply IH; assumption.
Qed.

Lemma gold_of_all gt pmid (e : Entry V) :
  In e (gold_of V gt pmid) -> In e (all_gold V gt).
Proof.
  unfold gold_of, all_gold. rewrite !in_flat_map.
  intros (doc & Hdoc & He). exists doc. split; [exact Hdoc |].
  destruct (eq_dec (fst doc) pmid); [exact He | contradiction].
Qed.

Lemma gold_labels_eq gt :
  gold_labels V gt = Dict.keys (fold_left bump (map (key_of V) (all_gold V gt)) []).
Proof.
  unfold gold_labels, index_ground_truth. rewrite index_from_annotated.
  reflexivity.
Qed.

(** The annotated counter has one key per label observed in ground truth. *)
Lemma in_gold_labels gt (l : Key V) :
  In l (gold_labels V gt) <->
  exists pmid a e, In (pmid, a) gt /\ In e (gold V a) /\ key_of V e = l.
Proof.
  rewrite gold_labels_eq, in_keys_bumps, in_map_iff. unfold all_gold. split.
  - intros [(e & He & Hin) | []]. apply in_flat_map in Hin as ([p a] & Hd & Hg).
    exists p, a, e. auto.
  - intros (p & a & e & Hd & Hg & He). left. exists e. split; [exact He |].
    apply in_flat_map. exists (p, a). auto.
Qed.

Lemma NoDup_gold_labels gt : NoDup (gold_labels V gt).
Proof. rewrite gold_labels_eq. apply NoDup_keys_bumps. constructor. Qed.

(** A tuple of a document's ground-truth list is counted under a seeded
    label. *)
Lemma gold_entry_seeded gt pmid gl (e : Entry V) :
  Dict.get (fst (index_ground_truth V gt)) pmid = Some gl ->
  In e gl -> In (key_of V e) (gold_labels V gt).
Proof.
  rewrite index_get. destruct (in_dec eq_dec pmid (map fst gt)); [| discriminate].
  intros Hg He. injection Hg as <-. apply gold_of_all in He.
  rewrite gold_labels_eq, in_keys_bumps. left. apply in_map. exact He.
Qed.
End IndexFacts.

(** ** The loop over the predictions *)

Lemma py_in_true {A} `{EqDec A} (x : A) (l : list A) :
  py_in x l = true <-> In x l.
Proof.
  unfold py_in. destruct (in_dec eq_dec x l); split; intros; try tauto;
    discriminate.
Qed.

Lemma py_in_false {A} `{EqDec A} (x : A) (l : list A) :
  py_in x l = false <-> ~ In x l.
Proof.
  unfold py_in. destruct (in_dec eq_dec x l); split; intros; try tauto;
    discriminate.
Qed.

Section ScoreFacts.
Variable V : Variant.
Variables entity_labels relation_labels : list string.
Implicit Types (c : counters (Key V)) (gt : ground_truth).

Local Abbreviation score := (score_item V entity_labels relation_labels).
Local Abbreviation score_doc := (score_article V entity_labels relation_labels).

(** What the step does on an item that passes the reading of its fields
    and the legality checks, in a document the index knows. *)
Lemma score_item_validated idx pmid c raw entry gl :
  read V raw = Some entry ->
  illegal V entity_labels relation_labels entry = None ->
  Dict.get idx pmid = Some gl ->
  score idx pmid c raw =
  if py_in entry gl then
    tp <- incr (true_positives c) (key_of V entry) ;;
    ok {| predicted := incr_if_present (predicted c) (key_of V entry);
          true_positives := tp |}
  else
    ok {| predicted := incr_if_present (predicted c) (key_of V entry);
          true_positives := true_positives c |}.
Proof.
  intros Hr Hl Hg. unfold score_item. rewrite Hr, Hl, Hg. reflexivity.
Qed.

Lemma score_item_inr idx pmid c raw c' :
  score idx pmid c raw = inr c' ->
  exists entry gl,
    read V raw = Some entry /\
    illegal V entity_labels relation_labels entry = None /\
    Dict.get idx pmid = Some gl.
Proof.
  unfold score_item.
  destruct (read V raw) as [entry |] eqn:Hr; [| discriminate].
  destruct (illegal V entity_labels relation_labels entry) as [[r v] |] eqn:Hl;
    [discriminate |].
  destruct (Dict.get idx pmid) as [gl |] eqn:Hg; [| discriminate].
  intros _. exists entry, gl. repeat split; assumption.
Qed.

Lemma score_item_seeded labels idx pmid c raw c' :
  seeded labels c -> score idx pmid c raw = inr c' -> seeded labels c'.
Proof.
  intros [Hp Ht] Hs.
  destruct (score_item_inr _ _ _ _ Hs) as (entry & gl & Hr & Hl & Hg).
  rewrite (score_item_validated _ _ c _ Hr Hl Hg) in Hs.
  destruct (py_in entry gl).
  - apply bind_inr in Hs as (tp & Hi & Hc). injection Hc as <-.
    split; simpl.
    + rewrite keys_incr_if_present. exact Hp.
    + rewrite (keys_incr _ _ Hi). exact Ht.
  - injection Hs as <-. split; simpl.
    + rewrite keys_incr_if_present. exact Hp.
    + exact Ht.
Qed.

Lemma score_article_seeded labels idx c doc c' :
  seeded labels c -> score_doc idx c doc = inr c' -> seeded labels c'.
Proof.
  destruct doc as [pmid a]. unfold score_article.
  destruct (predicted_items V a) as [items |]; [| discriminate].
  intros Hc Hrun.
  apply (@for_each_invariant _ _ (seeded labels) _
           (fun s x s' Hs => @score_item_seeded labels idx pmid s x s' Hs)
           items c c' Hc Hrun).
Qed.

Lemma initial_seeded gt : seeded (gold_labels V gt) (initial_counters V gt).
Proof.
  split; simpl; apply keys_zeros, NoDup_gold_labels.
Qed.

Lemma score_item_dominated gt pmid c raw c' :
  seeded (gold_labels V gt) c -> dominated c ->
  score (fst (index_ground_truth V gt)) pmid c raw = inr c' ->
  dominated c'.
Proof.
  intros [Hp Ht] Hd Hs.
  destruct (score_item_inr _ _ _ _ Hs) as (entry & gl & Hr & Hl & Hg).
  rewrite (score_item_validated _ _ c _ Hr Hl Hg) in Hs.
  destruct (py_in entry gl) eqn:Hin.
  - apply bind_inr in Hs as (tp & Hi & Hc). injection Hc as <-.
    intros l. simpl. rewrite (tally_incr _ _ l Hi), tally_incr_if_present.
    apply py_in_true in Hin.
    pose proof (gold_entry_seeded V gt pmid entry Hg Hin) as Hseed.
    rewrite <- Hp in Hseed. specialize (Hd l).
    destruct (eq_dec (key_of V entry) l); [| exact Hd].
    destruct (in_dec eq_dec (key_of V entry) (Dict.keys (predicted c)));
      [lia | contradiction].
  - injection Hs as <-. intros l. simpl. rewrite tally_incr_if_present.
    specialize (Hd l).
    destruct (eq_dec (key_of V entry) l); [| exact Hd].
    destruct (in_dec eq_dec (key_of V entry) (Dict.keys (predicted c))); lia.
Qed.

Lemma count_unfold gt preds :
  count V entity_labels relation_labels gt preds =
  for_each (score_doc (fst (index_ground_truth V gt))) preds
    (initial_counters V gt).
Proof.
  unfold count, accumulate, initial_counters, gold_labels.
  destruct (index_ground_truth V gt) as [idx ann]. reflexivity.
Qed.

Lemma evaluation_unfold gt preds :
  evaluation V entity_labels relation_labels gt preds =
  (c <- count V entity_labels relation_labels gt preds ;;
   aggregate V (snd (index_ground_truth V gt)) c).
Proof.
  unfold evaluation, count.
  destruct (index_ground_truth V gt) as [idx ann]. reflexivity.
Qed.

Lemma count_seeded gt preds c :
  count V entity_labels relation_labels gt preds = inr c ->
  seeded (gold_labels V gt) c.
Proof.
  rewrite count_unfold. intros Hrun.
  apply (@for_each_invariant _ _ (seeded (gold_labels V gt)) _
           (fun s x s' Hs => @score_article_seeded _ _ s x s' Hs)
           preds _ c (initial_seeded gt) Hrun).
Qed.

Lemma count_dominated gt preds c :
  count V entity_labels relation_labels gt preds = inr c -> dominated c.
Proof.
  rewrite count_unfold. intros Hrun.
  set (P := fun s : counters (Key V) =>
              seeded (gold_labels V gt) s /\ dominated s).
  cut (P c); [unfold P; tauto |].
  apply (@for_each_invariant _ _ P _) with (3 := Hrun).
  - intros s [pmid a] s' HP. unfold score_article.
    destruct (predicted_items V a) as [items |]; [| discriminate].
    intros Hdoc. apply (@for_each_invariant _ _ P _) with (3 := Hdoc);
      [| exact HP].
    intros s1 x s2 [Hs1 Hd1] Hstep. split.
    + eapply score_item_seeded; eassumption.
    + eapply score_item_dominated; eassumption.
  - split; [apply initial_seeded |]. intros l. simpl.
    rewrite !tally_zeros. lia.
Qed.
End ScoreFacts.

(** ** One validated item *)

Section StepFacts.
Variable V : Variant.
Variables entity_labels relation_labels : list string.

(** On a validated item of a document the ground truth has, the step
    returns; it leaves the predicted counter to [incr_if_present] and adds
    one true positive exactly when the tuple is in the document's list. *)
Lemma score_item_returns gt pmid (c : counters (Key V)) raw entry :
  In pmid (map fst gt) ->
  seeded (gold_labels V gt) c ->
  read V raw = Some entry ->
  illegal V entity_labels relation_labels entry = None ->
  exists c',
    score_item V entity_labels relation_labels
      (fst (index_ground_truth V gt)) pmid c raw = inr c' /\
    predicted c' = incr_if_present (predicted c) (key_of V entry) /\
    (In entry (gold_of V gt pmid) ->
     incr (true_positives c) (key_of V entry) = inr (true_positives c')) /\
    (~ In entry (gold_of V gt pmid) -> true_positives c' = true_positives c).
Proof.
  intros Hdoc [Hp Ht] Hr Hl.
  assert (Hg : Dict.get (fst (index_ground_truth V gt)) pmid =
               Some (gold_of V gt pmid)).
  { rewrite index_get. destruct (in_dec eq_dec pmid (map fst gt));
      [reflexivity | contradiction]. }
  erewrite score_item_validated; [| exact Hr | exact Hl | exact Hg].
  destruct (py_in entry (gold_of V gt pmid)) eqn:Hin.
  - apply py_in_true in Hin.
    pose proof (gold_entry_seeded V gt pmid entry Hg Hin) as Hseed.
    rewrite <- Ht in Hseed. destruct (incr_returns _ _ Hseed) as (tp & Hi).
    rewrite Hi. simpl. eexists. split; [reflexivity |]. simpl.
    split; [reflexivity | split; [intros _; reflexivity | intros Hn; contradiction]].
  - apply py_in_false in Hin. eexists. split; [reflexivity |]. simpl.
    split; [reflexivity | split; [intros Hy; contradiction | intros _; reflexivity]].
Qed.
End StepFacts.

(** ** What each variant reads from an item *)

Lemma read_NER (e : raw_entity) s n loc txt lab :
  read NER_variant e = Some (s, n, loc, txt, lab) <->
  start_idx e = Some s /\ end_idx e = Some n /\ location e = Some loc /\
  text_span e = Some txt /\ label e = Some lab.
Proof.
  destruct e as [[s' |] [n' |] [loc' |] [txt' |] [lab' |]]; simpl;
    split; intros Hx; try discriminate;
    try (destruct Hx as (? & ? & ? & ? & ?); discriminate).
  - injection Hx as -> -> -> -> ->. repeat split.
  - destruct Hx as (H1 & H2 & H3 & H4 & H5).
    injection H1 as ->. injection H2 as ->. injection H3 as ->.
    injection H4 as ->. injection H5 as ->. reflexivity.
Qed.

Lemma read_RE621 (r : relation) s o :
  read RE621_variant r = Some (s, o) <->
  subject_label r = Some s /\ object_label r = Some o.
Proof.
  destruct r as [st [s' |] p ot [o' |]]; simpl;
    split; intros Hx; try discriminate;
    try (destruct Hx as (? & ?); discriminate).
  - injection Hx as -> ->. split; reflexivity.
  - destruct Hx as (H1 & H2). injection H1 as ->. injection H2 as ->.
    reflexivity.
Qed.

Lemma read_RE622 (r : relation) s p o :
  read RE622_variant r = Some (s, p, o) <->
  subject_label r = Some s /\ predicate r = Some p /\ object_label r = Some o.
Proof.
  destruct r as [st [s' |] [p' |] ot [o' |]]; simpl;
    split; intros Hx; try discriminate;
    try (destruct Hx as (? & ? & ?); discriminate).
  - injection Hx as -> -> ->. repeat split.
  - destruct Hx as (H1 & H2 & H3). injection H1 as ->. injection H2 as ->.
    injection H3 as ->. reflexivity.
Qed.

Lemma read_RE623 (r : relation) st s p ot o :
  read RE623_variant r = Some (st, s, p, ot, o) <->
  subject_text_span r = Some st /\ subject_label r = Some s /\
  predicate r = Some p /\ object_text_span r = Some ot /\
  object_label r = Some o.
Proof.
  destruct r as [[st' |] [s' |] [p' |] [ot' |] [o' |]]; simpl;
    split; intros Hx; try discriminate;
    try (destruct Hx as (? & ? & ? & ? & ?); discriminate).
  - injection Hx as -> -> -> -> ->. repeat split.
  - destruct Hx as (H1 & H2 & H3 & H4 & H5).
    injection H1 as ->. injection H2 as ->. injection H3 as ->.
    injection H4 as ->. injection H5 as ->. reflexivity.
Qed.

(** ** The aggregation *)

Section AggregateFacts.
Variable V : Variant.
Implicit Types (annotated : counts (Key V)) (c : counters (Key V)).

Lemma lookup_seeded (d : counts (Key V)) (l : Key V) :
  In l (Dict.keys d) -> lookup V d l = inr (tally_of d l).
Proof.
  intros Hin. apply keys_get in Hin as (n & Hg).
  unfold lookup, tally_of. rewrite Hg. reflexivity.
Qed.

(** The macro loop adds, label by label, the smoothed precision, recall and
    F1 of the label, and counts the labels. *)
Lemma macro_loop annotated c (ls : list (Key V)) (acc : macro_sums) :
  (forall l, In l ls -> In l (Dict.keys annotated)) ->
  seeded (Dict.keys annotated) c ->
  for_each (macro_step V annotated c) ls acc =
  inr {| sum_precision :=
           fold_left PyFloat.add (map (label_precision c) ls)
             (sum_precision acc);
         sum_recall :=
           fold_left PyFloat.add (map (label_recall annotated c) ls)
             (sum_recall acc);
         sum_f1 :=
           fold_left PyFloat.add (map (label_f1 annotated c) ls) (sum_f1 acc);
         n_labels := n_labels acc + Z.of_nat (List.length ls) |}.
Proof.
  intros Hsub [Hp Ht]. revert acc Hsub.
  induction ls as [| l ls IH]; intros acc Hsub.
  - simpl. rewrite Z.add_0_r. destruct acc; reflexivity.
  - assert (Hl : In l (Dict.keys annotated)) by (apply Hsub; left; reflexivity).
    cbn [for_each]. unfold macro_step at 1.
    rewrite (lookup_seeded (true_positives c) l) by (rewrite Ht; exact Hl).
    rewrite (lookup_seeded (predicted c) l) by (rewrite Hp; exact Hl).
    rewrite (lookup_seeded annotated l) by exact Hl.
    cbn [bind ok]. rewrite IH by (intros l' Hl'; apply Hsub; right; exact Hl').
    cbn [sum_precision sum_recall sum_f1 n_labels map fold_left List.length].
    f_equal. f_equal. lia.
Qed.

(** The whole aggregation on counters that have the annotated labels as
    their keys. *)
Lemma aggregate_seeded annotated c :
  NoDup (Dict.keys annotated) ->
  seeded (Dict.keys annotated) c ->
  aggregate V annotated c =
  if Z.of_nat (List.length (Dict.keys annotated)) =? 0
  then inl ZeroDivisionError
  else
    let labels := Dict.keys annotated in
    let micro_precision :=
      smoothed_ratio (total (true_positives c)) (total (predicted c)) in
    let micro_recall :=
      smoothed_ratio (total (true_positives c)) (total annotated) in
    inr {| precision_macro := float_mean (map (label_precision c) labels);
           recall_macro := float_mean (map (label_recall annotated c) labels);
           f1_macro := float_mean (map (label_f1 annotated c) labels);
           precision_micro := micro_precision;
           recall_micro := micro_recall;
           f1_micro := smoothed_f1 micro_precision micro_recall |}.
Proof.
  intros Hnd Hseed. pose proof Hseed as [Hp Ht]. unfold aggregate.
  rewrite (sum_over_keys annotated Hnd eq_refl).
  rewrite (sum_over_keys (predicted c) Hnd Hp).
  rewrite (sum_over_keys (true_positives c) Hnd Ht).
  cbn [bind]. rewrite macro_loop by (auto || exact Hseed).
  cbn [bind n_labels sum_precision sum_recall sum_f1]. rewrite Z.add_0_l.
  destruct (Z.of_nat (List.length (Dict.keys annotated)) =? 0); [reflexivity |].
  unfold float_mean, float_sum, ok. rewrite !length_map. reflexivity.
Qed.
End AggregateFacts.

(** ** The legality checks *)

Lemma negb_py_in_true {A} `{EqDec A} (x : A) (l : list A) :
  negb (py_in x l) = true <-> ~ In x l.
Proof. rewrite negb_true_iff. apply py_in_false. Qed.

(** An item that carries an illegal value fails a check. *)
Lemma illegal_complete (t : task) (ents rels : list string)
    (entry : Entry (variant t)) :
  carries_illegal t ents rels entry ->
  exists r value, illegal (variant t) ents rels entry = Some (r, value).
Proof.
  unfold carries_illegal.
  destruct t; simpl in *.
  - destruct entry as [[[[s n] loc] txt] lab]. simpl.
    intros [(v & [<- | []] & Hv) | (v & [] & _)].
    apply py_in_false in Hv. rewrite Hv. eauto.
  - destruct entry as [s o]. simpl.
    intros [(v & Hin & Hv) | (v & [] & _)].
    destruct (py_in s ents) eqn:Hs; simpl; [| eauto].
    destruct (py_in o ents) eqn:Ho; simpl; [| eauto].
    apply py_in_true in Hs, Ho.
    destruct Hin as [<- | [<- | []]]; contradiction.
  - destruct entry as [[s p] o]. simpl.
    destruct (py_in s ents) eqn:Hs; simpl; [| eauto].
    destruct (py_in o ents) eqn:Ho; simpl; [| eauto].
    destruct (py_in p rels) eqn:Hp; simpl; [| eauto].
    apply py_in_true in Hs, Ho, Hp.
    intros [(v & Hin & Hv) | (v & Hin & Hv)].
    + destruct Hin as [<- | [<- | []]]; contradiction.
    + destruct Hin as [<- | []]; contradiction.
  - destruct entry as [[[[st s] p] ot] o]. simpl.
    destruct (py_in s ents) eqn:Hs; simpl; [| eauto].
    destruct (py_in o ents) eqn:Ho; simpl; [| eauto].
    destruct (py_in p rels) eqn:Hp; simpl; [| eauto].
    apply py_in_true in Hs, Ho, Hp.
    intros [(v & Hin & Hv) | (v & Hin & Hv)].
    + destruct Hin as [<- | [<- | []]]; contradiction.
    + destruct Hin as [<- | []]; contradiction.
Qed.

(** The value a failed check names is a field of the item and is outside
    the vocabulary of that field. *)
Lemma illegal_sound (t : task) (ents rels : list string)
    (entry : Entry (variant t)) (r : role) (value : string) :
  illegal (variant t) ents rels entry = Some (r, value) ->
  (In value (entity_label_fields t entry) /\ ~ In value ents) \/
  (In value (predicate_fields t entry) /\ ~ In value rels).
Proof.
  destruct t; simpl in *.
  - destruct entry as [[[[s n] loc] txt] lab]. simpl.
    destruct (py_in lab ents) eqn:Hs; [discriminate |].
    intros Hx. injection Hx as _ <-. apply py_in_false in Hs.
    left. simpl. auto.
  - destruct entry as [s o]. simpl.
    destruct (py_in s ents) eqn:Hs; simpl.
    + destruct (py_in o ents) eqn:Ho; simpl; [discriminate |].
      intros Hx. injection Hx as _ <-. apply py_in_false in Ho. left. auto.
    + intros Hx. injection Hx as _ <-. apply py_in_false in Hs. left. auto.
  - destruct entry as [[s p] o]. simpl.
    destruct (py_in s ents) eqn:Hs; simpl.
    + destruct (py_in o ents) eqn:Ho; simpl.
      * destruct (py_in p rels) eqn:Hp; simpl; [discriminate |].
        intros Hx. injection Hx as _ <-. apply py_in_false in Hp.
        right. auto.
      * intros Hx. injection Hx as _ <-. apply py_in_false in Ho. left. auto.
    + intros Hx. injection Hx as _ <-. apply py_in_false in Hs. left. auto.
  - destruct entry as [[[[st s] p] ot] o]. simpl.
    destruct (py_in s ents) eqn:Hs; simpl.
    + destruct (py_in o ents) eqn:Ho; simpl.
      * destruct (py_in p rels) eqn:Hp; simpl; [discriminate |].
        intros Hx. injection Hx as _ <-. apply py_in_false in Hp.
        right. auto.
      * intros Hx. injection Hx as _ <-. apply py_in_false in Ho. left. auto.
    + intros Hx. injection Hx as _ <-. apply py_in_false in Hs. left. auto.
Qed.

Section AbortFacts.
Variable V : Variant.
Variables entity_labels relation_labels : list string.

Lemma score_item_illegal idx pmid (c : counters (Key V)) raw entry r value :
  read V raw = Some entry ->
  illegal V entity_labels relation_labels entry = Some (r, value) ->
  score_item V entity_labels relation_labels idx pmid c raw =
  inl (NameError pmid r value).
Proof. intros Hr Hl. unfold score_item. rewrite Hr, Hl. reflexivity. Qed.

(** The first item of a document the index does not know never passes. *)
Lemma score_item_unknown_document idx pmid (c : counters (Key V)) raw :
  Dict.get idx pmid = None ->
  exists e, score_item V entity_labels relation_labels idx pmid c raw = inl e.
Proof.
  intros Hg. unfold score_item.
  destruct (read V raw) as [entry |]; [| eexists; reflexivity].
  destruct (illegal V entity_labels relation_labels entry) as [[r v] |];
    [eexists; reflexivity |].
  rewrite Hg. eexists. reflexivity.
Qed.

(** A raising document makes the routine raise. *)
Lemma evaluation_stuck gt preds (doc : string * predicted_article) :
  (forall c, exists e,
      score_article V entity_labels relation_labels
        (fst (index_ground_truth V gt)) c doc = inl e) ->
  In doc preds ->
  exists e, evaluation V entity_labels relation_labels gt preds = inl e.
Proof.
  intros Hdoc Hin. rewrite evaluation_unfold, count_unfold.
  destruct (for_each_stuck _ doc Hdoc preds (initial_counters V gt) Hin)
    as (e & He).
  exists e. rewrite He. reflexivity.
Qed.

(** The routine raises what the first raising item raises. *)
Lemma evaluation_first_error gt before pmid pa after items ib raw ia c0 c1 e :
  predicted_items V pa = Some items ->
  items = ib ++ raw :: ia ->
  for_each (score_article V entity_labels relation_labels
              (fst (index_ground_truth V gt))) before
    (initial_counters V gt) = inr c0 ->
  for_each (score_item V entity_labels relation_labels
              (fst (index_ground_truth V gt)) pmid) ib c0 = inr c1 ->
  score_item V entity_labels relation_labels
    (fst (index_ground_truth V gt)) pmid c1 raw = inl e ->
  evaluation V entity_labels relation_labels gt
    (before ++ (pmid, pa) :: after) = inl e.
Proof.
  intros Hitems -> Hbefore Hib Hraw.
  rewrite evaluation_unfold, count_unfold.
  erewrite for_each_raises; [reflexivity | exact Hbefore |].
  unfold score_article. rewrite Hitems.
  eapply for_each_raises; eassumption.
Qed.
End AbortFacts.

(** ** The voter *)

Lemma for_each_map {S X Y} (body : S -> Y -> result S) (g : X -> Y)
    (xs : list X) (s : S) :
  for_each body (map g xs) s = for_each (fun s x => body s (g x)) xs s.
Proof.
  revert s. induction xs as [| x xs IH]; intros s; simpl.
  - reflexivity.
  - destruct (body s (g x)); simpl; [reflexivity | apply IH].
Qed.

(** Two nested loops that return are one loop over the flattened list. *)
Lemma for_each_flat_map {S X Y} (outer : S -> X -> result S)
    (inner : S -> Y -> result S) (g : X -> list Y) :
  (forall s x s', outer s x = inr s' -> for_each inner (g x) s = inr s') ->
  forall xs s s',
    for_each outer xs s = inr s' ->
    for_each inner (flat_map g xs) s = inr s'.
Proof.
  intros Hstep xs. induction xs as [| x xs IH]; simpl; intros s s' Hrun.
  - exact Hrun.
  - apply bind_inr in Hrun as (s1 & H1 & H2).
    rewrite for_each_app, (Hstep _ _ _ H1). simpl. apply IH. exact H2.
Qed.

Lemma In_get {K V} `{EqDec K} (d : list (K * V)) (k : K) (v : V) :
  NoDup (Dict.keys d) -> In (k, v) d -> Dict.get d k = Some v.
Proof.
  induction d as [| [k' v'] r IH]; simpl; intros Hnd Hin.
  - contradiction.
  - inversion Hnd as [| ? ? Hk Hr]; subst.
    destruct Hin as [E | Hin].
    + injection E as -> ->. destruct (eq_dec k k); [reflexivity | contradiction].
    + destruct (eq_dec k k') as [-> | _].
      * exfalso. apply Hk. change k' with (fst (k', v)).
        apply in_map. exact Hin.
      * apply IH; assumption.
Qed.

Lemma get_In {K V} `{EqDec K} (d : list (K * V)) (k : K) (v : V) :
  Dict.get d k = Some v -> In (k, v) d.
Proof.
  induction d as [| [k' v'] r IH]; simpl; intros Hg.
  - discriminate.
  - destruct (eq_dec k k') as [-> | _].
    + injection Hg as ->. left. reflexivity.
    + right. apply IH. exact Hg.
Qed.

Section VoterFacts.
Variables (the_subtask subtask_name : string).

Local Abbreviation key_of_relation := (relation_key the_subtask).
Local Abbreviation cast :=
  (fun (rv : relation_votes) (pr : string * relation) =>
     cast_vote the_subtask (fst pr) rv (snd pr)).
Local Abbreviation filed :=
  (fun (k : vote_key) (ps : list (string * relation)) =>
     map snd (filter (has_key the_subtask k) ps)).

(** The first component of a key is the paper id. *)
Lemma relation_key_fst (paper_id : string) (r : relation) (k : vote_key) :
  key_of_relation paper_id r = inr k -> fst k = paper_id.
Proof.
  unfold relation_key, getitem.
  destruct (String.eqb the_subtask "6.2.1").
  { destruct (subject_label r), (object_label r); simpl; intros Hk;
      try discriminate; injection Hk as <-; reflexivity. }
  destruct (String.eqb the_subtask "6.2.2").
  { destruct (subject_label r), (predicate r), (object_label r); simpl;
      intros Hk; try discriminate; injection Hk as <-; reflexivity. }
  destruct (String.eqb the_subtask "6.2.3").
  { destruct (subject_text_span r), (subject_label r), (predicate r),
      (object_text_span r), (object_label r); simpl;
      intros Hk; try discriminate; injection Hk as <-; reflexivity. }
  discriminate.
Qed.

Lemma has_key_true (k : vote_key) (pr : string * relation) :
  has_key the_subtask k pr = true <-> key_of_relation (fst pr) (snd pr) = inr k.
Proof.
  unfold has_key. destruct (key_of_relation (fst pr) (snd pr)) as [e | k'].
  - split; discriminate.
  - destruct (eq_dec k k') as [-> | N]; split; intros Hx;
      try reflexivity; try discriminate.
    injection Hx as <-. contradiction.
Qed.

(** The three loops of the vote are one loop over the proposals. *)
Lemma vote_is_cast (preds : list model_predictions) (rv0 rv : relation_votes) :
  for_each (vote_model the_subtask subtask_name) preds rv0 = inr rv ->
  for_each cast (proposals preds) rv0 = inr rv.
Proof.
  unfold proposals. apply for_each_flat_map.
  intros s mp s'. unfold vote_model, proposals_of. apply for_each_flat_map.
  clear. intros s [paper_id [rels |]] s'; simpl; [| discriminate].
  intros Hrun. rewrite for_each_map. exact Hrun.
Qed.

(** After the vote, a key holds the relations filed under it, in order. *)
Lemma cast_get (ps : list (string * relation)) (rv0 rv : relation_votes)
    (k : vote_key) :
  for_each cast ps rv0 = inr rv ->
  Dict.get rv k =
  match Dict.get rv0 k with
  | Some l0 => Some (l0 ++ filed k ps)
  | None => match filed k ps with [] => None | l => Some l end
  end.
Proof.
  revert rv0. induction ps as [| [pid r] ps IH]; intros rv0 Hrun.
  - simpl in *. injection Hrun as <-.
    destruct (Dict.get rv0 k); [rewrite app_nil_r |]; reflexivity.
  - cbn [for_each] in Hrun. apply bind_inr in Hrun as (rv1 & H1 & H2).
    unfold cast_vote in H1. cbn [fst snd] in H1.
    apply bind_inr in H1 as (k1 & Hk1 & Hrv1). injection Hrv1 as <-.
    rewrite (IH _ H2). cbn beta. cbn [filter].
    replace (has_key the_subtask k (pid, r))
      with (if eq_dec k k1 then true else false)
      by (unfold has_key; cbn [fst snd]; rewrite Hk1; reflexivity).
    destruct (eq_dec k k1) as [<- | N].
    + rewrite get_append_at_same. cbn [map snd].
      destruct (Dict.get rv0 k) as [l0 |].
      * rewrite <- app_assoc. reflexivity.
      * reflexivity.
    + rewrite get_append_at_other by congruence.
      reflexivity.
Qed.

Lemma cast_NoDup (ps : list (string * relation)) (rv0 rv : relation_votes) :
  NoDup (Dict.keys rv0) ->
  for_each cast ps rv0 = inr rv -> NoDup (Dict.keys rv).
Proof.
  intros Hnd Hrun.
  apply (@for_each_invariant _ _ (fun d : relation_votes => NoDup (Dict.keys d))
           cast) with (3 := Hrun); [| exact Hnd].
  intros s [pid r] s' Hs Hstep. unfold cast_vote in Hstep.
  apply bind_inr in Hstep as (k1 & _ & Hs'). injection Hs' as <-.
  unfold append_at. apply NoDup_keys_set. exact Hs.
Qed.

Lemma survivors_append_at (res : ensemble_results) (p paper_id : string)
    (r : relation) :
  survivors (append_at res p r) paper_id =
  if eq_dec p paper_id then survivors res paper_id ++ [r]
  else survivors res paper_id.
Proof.
  unfold survivors. destruct (eq_dec p paper_id) as [<- | N].
  - rewrite get_append_at_same. destruct (Dict.get res p); reflexivity.
  - rewrite get_append_at_other by exact N. reflexivity.
Qed.

Lemma tally_survivors (n : Z) (rv : relation_votes)
    (res0 out : ensemble_results) (paper_id : string) :
  for_each (tally n) rv res0 = inr out ->
  survivors out paper_id = survivors res0 paper_id ++ kept n rv paper_id.
Proof.
  revert res0. induction rv as [| [k votes] rv IH]; intros res0 Hrun.
  - simpl in *. injection Hrun as <-. rewrite app_nil_r. reflexivity.
  - cbn [for_each] in Hrun. apply bind_inr in Hrun as (res1 & H1 & H2).
    rewrite (IH _ H2). unfold kept. cbn [flat_map fst snd].
    unfold tally in H1.
    destruct (math_ceil_half n <=? Z.of_nat (List.length votes)).
    + destruct votes as [| first rest]; [discriminate |].
      injection H1 as <-. rewrite survivors_append_at. cbn [andb firstn].
      destruct (eq_dec (fst k) paper_id).
      * rewrite <- app_assoc. reflexivity.
      * reflexivity.
    + injection H1 as <-. reflexivity.
Qed.
End VoterFacts.

Lemma math_ceil_half_eq (n : Z) : math_ceil_half n = (n + 1) / 2.
Proof. unfold math_ceil_half. Z.div_mod_to_equations. lia. Qed.

Lemma filter_none_existsb {X} (p : X -> bool) (l : list X) :
  existsb p l = false -> filter p l = [].
Proof.
  induction l as [| x l IH]; simpl; intros Hx.
  - reflexivity.
  - apply orb_false_iff in Hx as [Hp Hl]. rewrite Hp. apply IH. exact Hl.
Qed.

Lemma filter_some_existsb {X} (p : X -> bool) (l : list X) :
  existsb p l = true -> filter p l <> [].
Proof.
  induction l as [| x l IH]; simpl; intros Hx.
  - discriminate.
  - destruct (p x); [discriminate | apply IH; exact Hx].
Qed.

Lemma hd_error_filter {X Y} (p : X * Y -> bool) (l : list (X * Y)) (y : Y) :
  hd_error (map snd (filter p l)) = Some y ->
  exists x, In (x, y) l /\ p (x, y) = true.
Proof.
  destruct (filter p l) as [| [x y'] rest] eqn:Hf; simpl; intros Hy.
  - discriminate.
  - injection Hy as <-. exists x. apply filter_In. rewrite Hf. left. reflexivity.
Qed.

Section VoteCount.
Variables (the_subtask subtask_name : string).

(** The mapping the voter returns, paper by paper. *)
Lemma survivors_spec (preds : list model_predictions) (out : ensemble_results)
    (paper_id : string) (r : relation) :
  perform_relation_level_inference the_subtask subtask_name preds = inr out ->
  In r (survivors out paper_id) <->
  exists k,
    fst k = paper_id /\
    hd_error (votes_for the_subtask k preds) = Some r /\
    math_ceil_half (Z.of_nat (List.length preds)) <=
    Z.of_nat (List.length (votes_for the_subtask k preds)).
Proof.
  unfold perform_relation_level_inference. intros Hrun.
  apply bind_inr in Hrun as (rv & Hvote & Htally).
  apply vote_is_cast in Hvote.
  pose proof (@cast_NoDup the_subtask (proposals preds) [] rv
                (NoDup_nil _) Hvote) as Hnd.
  pose proof (fun k => @cast_get the_subtask (proposals preds) [] rv k Hvote)
    as Hget.
  cbn [Dict.get] in Hget.
  rewrite (@tally_survivors _ rv [] out paper_id Htally). unfold survivors at 1.
  cbn [Dict.get app]. unfold kept. rewrite in_flat_map. unfold votes_for.
  split.
  - intros ([k votes] & Hin & Hr). cbn [fst snd] in Hr.
    destruct (math_ceil_half (Z.of_nat (List.length preds)) <=?
              Z.of_nat (List.length votes)) eqn:Hthr; [| contradiction].
    destruct (eq_dec (fst k) paper_id) as [Hk | _]; [| contradiction].
    cbn [andb] in Hr. apply Z.leb_le in Hthr.
    pose proof (@In_get _ _ _ rv k votes Hnd Hin) as Hk'. rewrite Hget in Hk'.
    exists k. split; [exact Hk |].
    destruct (map snd (filter (has_key the_subtask k) (proposals preds)))
      as [| v rest]; [discriminate |].
    injection Hk' as <-. cbn [firstn] in Hr. destruct Hr as [<- | []].
    split; [reflexivity | exact Hthr].
  - intros (k & Hk & Hhd & Hthr).
    destruct (map snd (filter (has_key the_subtask k) (proposals preds)))
      as [| v rest] eqn:Hf; [discriminate |].
    injection Hhd as ->. specialize (Hget k). rewrite Hf in Hget.
    apply get_In in Hget. exists (k, r :: rest). split; [exact Hget |].
    cbn [fst snd]. apply Z.leb_le in Hthr. rewrite Hthr.
    destruct (eq_dec (fst k) paper_id); [| contradiction].
    left. reflexivity.
Qed.

(** A relation is the first vote of one key of its paper only. *)
Lemma representative_key (preds : list model_predictions)
    (k k' : vote_key) (r : relation) :
  hd_error (votes_for the_subtask k preds) = Some r ->
  hd_error (votes_for the_subtask k' preds) = Some r ->
  fst k' = fst k -> k' = k.
Proof.
  unfold votes_for. intros Hk Hk' Hfst.
  apply hd_error_filter in Hk as (p & _ & Hp).
  apply hd_error_filter in Hk' as (p' & _ & Hp').
  apply has_key_true in Hp, Hp'. cbn [fst snd] in Hp, Hp'.
  pose proof (@relation_key_fst the_subtask _ _ _ Hp) as H1.
  pose proof (@relation_key_fst the_subtask _ _ _ Hp') as H2.
  assert (p' = p) by congruence. subst p'. congruence.
Qed.

(** When no prediction set files two relations under [k], the votes of [k]
    are as many as the sets that propose it. *)
Lemma votes_are_models (preds : list model_predictions) (k : vote_key) :
  (forall mp, In mp preds ->
     (List.length (filter (has_key the_subtask k) (proposals_of mp)) <= 1)%nat) ->
  List.length (votes_for the_subtask k preds) =
  models_proposing the_subtask k preds.
Proof.
  unfold votes_for, models_proposing, proposals. rewrite length_map.
  induction preds as [| mp preds IH]; intros Hone.
  - reflexivity.
  - cbn [flat_map filter]. rewrite filter_app, length_app.
    rewrite IH by (intros mp' Hmp'; apply Hone; right; exact Hmp').
    specialize (Hone mp (or_introl eq_refl)).
    destruct (existsb (has_key the_subtask k) (proposals_of mp)) eqn:Hex.
    + apply filter_some_existsb in Hex.
      destruct (filter (has_key the_subtask k) (proposals_of mp))
        as [| x [| y rest]]; simpl in *; try contradiction; try lia.
    + rewrite (@filter_none_existsb _ _ _ Hex). reflexivity.
Qed.
End VoteCount.

(** Without a label in ground truth the aggregation divides 0 by 0. *)
Lemma aggregate_without_labels (V : Variant) (c : counters (Key V)) :
  seeded [] c -> aggregate V [] c = inl ZeroDivisionError.
Proof.
  intros Hseed. rewrite aggregate_seeded; [reflexivity | constructor | exact Hseed].
Qed.

Lemma run_unfold (t : task) (E R : list string) gt preds :
  run t E R gt preds = evaluation (variant t) (tl E) (tl R) gt preds.
Proof. destruct t; reflexivity. Qed.

(** * The claims *)

(** C1.  A validated predicted item adds one true positive under its
    counting key exactly when its exact-match tuple is in the ground-truth
    list of its document, and changes no other true-positive count.  The
    tuple is (start_idx, end_idx, location, text_span, label) for NER, counted
    under the label; (subject_label, object_label) for 6.2.1; (subject_label,
    predicate, object_label) for 6.2.2; and (subject_text_span, subject_label,
    predicate, object_text_span, object_label) for 6.2.3, counted under
    (subject_label, predicate, object_label). *)
Theorem true_positive_iff_exact_match :
  (forall (t : task) (entity_labels relation_labels : list string)
          (gt : ground_truth) (pmid : string) (a : article)
          (c : counters (Key (variant t)))
          (raw : Raw (variant t)) (entry : Entry (variant t)),
      NoDup (map fst gt) -> In (pmid, a) gt ->
      seeded (gold_labels (variant t) gt) c ->
      read (variant t) raw = Some entry ->
      illegal (variant t) entity_labels relation_labels entry = None ->
      exists c',
        score_item (variant t) entity_labels relation_labels
          (fst (index_ground_truth (variant t) gt)) pmid c raw = inr c' /\
        (In entry (gold (variant t) a) ->
         tally_of (true_positives c') (key_of (variant t) entry) =
         tally_of (true_positives c) (key_of (variant t) entry) + 1) /\
        (~ In entry (gold (variant t) a) ->
         true_positives c' = true_positives c) /\
        (forall l, l <> key_of (variant t) entry ->
         tally_of (true_positives c') l = tally_of (true_positives c) l)) /\
  (forall e s n loc txt lab,
      read (variant NER) e = Some (s, n, loc, txt, lab) <->
      start_idx e = Some s /\ end_idx e = Some n /\ location e = Some loc /\
      text_span e = Some txt /\ label e = Some lab) /\
  (forall s n loc txt lab, key_of (variant NER) (s, n, loc, txt, lab) = lab) /\
  (forall r s o,
      read (variant RE621) r = Some (s, o) <->
      subject_label r = Some s /\ object_label r = Some o) /\
  (forall s o, key_of (variant RE621) (s, o) = (s, o)) /\
  (forall r s p o,
      read (variant RE622) r = Some (s, p, o) <->
      subject_label r = Some s /\ predicate r = Some p /\
      object_label r = Some o) /\
  (forall s p o, key_of (variant RE622) (s, p, o) = (s, p, o)) /\
  (forall r st s p ot o,
      read (variant RE623) r = Some (st, s, p, ot, o) <->
      subject_text_span r = Some st /\ subject_label r = Some s /\
      predicate r = Some p /\ object_text_span r = Some ot /\
      object_label r = Some o) /\
  (forall st s p ot o,
      key_of (variant RE623) (st, s, p, ot, o) = (s, p, o)).
Proof.
  split;
    [| split; [exact read_NER |];
       split; [intros; reflexivity |];
       split; [exact read_RE621 |];
       split; [intros; reflexivity |];
       split; [exact read_RE622 |];
       split; [intros; reflexivity |];
       split; [exact read_RE623 | intros; reflexivity]].
  intros t entity_labels relation_labels gt pmid a c raw entry
         Hnd Hdoc Hseed Hr Hl.
  assert (Hin : In pmid (map fst gt)).
  { change pmid with (fst (pmid, a)). apply in_map. exact Hdoc. }
  destruct (@score_item_returns (variant t) entity_labels relation_labels
              gt pmid c raw entry Hin Hseed Hr Hl)
    as (c' & Hrun & _ & Hyes & Hno).
  rewrite (@gold_of_unique (variant t) gt pmid a Hnd Hdoc) in Hyes, Hno.
  exists c'. split; [exact Hrun |]. split; [| split].
  - intros Hgold. rewrite (@tally_incr _ _ _ _ _ (key_of (variant t) entry) (Hyes Hgold)).
    destruct (eq_dec (key_of (variant t) entry) (key_of (variant t) entry));
      [reflexivity | contradiction].
  - exact Hno.
  - intros l Hl'.
    destruct (in_dec eq_dec entry (gold (variant t) a)) as [Hgold | Hn].
    + rewrite (@tally_incr _ _ _ _ _ l (Hyes Hgold)).
      destruct (eq_dec (key_of (variant t) entry) l); [congruence | reflexivity].
    + rewrite (Hno Hn). reflexivity.
Qed.

Lemma true_positive_iff_exact_match_witness :
  exists c',
    score_item (variant NER) (tl Sample.entity_vocabulary) []
      (fst (index_ground_truth (variant NER) Sample.gt_D1)) "D1"
      (initial_counters (variant NER) Sample.gt_D1) Sample.raw_gene = inr c' /\
    tally_of (true_positives c') "Gene" = 1.
Proof.
  destruct (proj1 true_positive_iff_exact_match NER
              (tl Sample.entity_vocabulary) [] Sample.gt_D1 "D1"
              Sample.article_D1
              (initial_counters (variant NER) Sample.gt_D1)
              Sample.raw_gene Sample.gene)
    as (c' & Hrun & Hyes & _).
  - repeat constructor. simpl. tauto.
  - left. reflexivity.
  - split; reflexivity.
  - reflexivity.
  - reflexivity.
  - exists c'. split; [exact Hrun |].
    exact (Hyes (or_introl eq_refl)).
Defined.

(** C2, as stated, fails: in 6.2.1 the pair (Disease, Gene) is made of legal
    labels but no gold relation has it, and the predicted counter of the run
    has no such key; the step leaves its count where it was. *)
Lemma unseeded_prediction_not_counted :
  illegal (variant RE621) (tl Sample.entity_vocabulary) []
    ("Disease", "Gene") = None /\
  count (variant RE621) (tl Sample.entity_vocabulary) [] Sample.gt_D1
    [("D1", Sample.with_binary [Sample.tags "Disease" "Gene"])] =
  inr {| predicted := [(("Gene", "Disease"), 0)];
         true_positives := [(("Gene", "Disease"), 0)] |} /\
  forall c,
    count (variant RE621) (tl Sample.entity_vocabulary) [] Sample.gt_D1
      [("D1", Sample.with_binary [Sample.tags "Disease" "Gene"])] = inr c ->
    Dict.get (predicted c) ("Disease", "Gene") = None /\
    tally_of (predicted c) ("Disease", "Gene") <>
    tally_of (predicted (initial_counters (variant RE621) Sample.gt_D1))
      ("Disease", "Gene") + 1.
Proof.
  split; [reflexivity |]. split; [reflexivity |].
  intros c Hc. vm_compute in Hc. injection Hc as <-.
  split; [reflexivity | vm_compute; discriminate].
Qed.

(** C2, amended.  A validated predicted item of a document the ground truth
    has adds one to the predicted count of its counting key exactly when
    that key was seeded from ground truth (some gold item of some document
    is counted under it).  For an unseeded key the predicted counter is left
    as it was and has no entry for the key, the true positives are left as
    they were, and the key is not among the labels the macro average ranges
    over.  No other predicted count changes. *)
Theorem predicted_incremented_iff_seeded
    (t : task) (entity_labels relation_labels : list string)
    (gt : ground_truth) (pmid : string)
    (c : counters (Key (variant t)))
    (raw : Raw (variant t)) (entry : Entry (variant t)) :
  In pmid (map fst gt) ->
  seeded (gold_labels (variant t) gt) c ->
  read (variant t) raw = Some entry ->
  illegal (variant t) entity_labels relation_labels entry = None ->
  exists c',
    score_item (variant t) entity_labels relation_labels
      (fst (index_ground_truth (variant t) gt)) pmid c raw = inr c' /\
    (In (key_of (variant t) entry) (gold_labels (variant t) gt) ->
     tally_of (predicted c') (key_of (variant t) entry) =
     tally_of (predicted c) (key_of (variant t) entry) + 1) /\
    (~ In (key_of (variant t) entry) (gold_labels (variant t) gt) ->
     predicted c' = predicted c /\
     Dict.get (predicted c') (key_of (variant t) entry) = None /\
     true_positives c' = true_positives c) /\
    (forall l, l <> key_of (variant t) entry ->
     tally_of (predicted c') l = tally_of (predicted c) l).
Proof.
  intros Hin Hseed Hr Hl.
  destruct (@score_item_returns (variant t) entity_labels relation_labels
              gt pmid c raw entry Hin Hseed Hr Hl)
    as (c' & Hrun & Hpred & Hyes & Hno).
  destruct Hseed as [Hp Ht].
  exists c'. split; [exact Hrun |]. rewrite Hpred. split; [| split].
  - intros Hk. rewrite tally_incr_if_present, Hp.
    destruct (eq_dec (key_of (variant t) entry) (key_of (variant t) entry));
      [| contradiction].
    destruct (in_dec eq_dec (key_of (variant t) entry)
                (gold_labels (variant t) gt)); [reflexivity | contradiction].
  - intros Hk.
    assert (Hnone : Dict.get (predicted c) (key_of (variant t) entry) = None).
    { apply get_None_keys. rewrite Hp. exact Hk. }
    assert (Hsame : incr_if_present (predicted c) (key_of (variant t) entry) =
                    predicted c).
    { unfold incr_if_present. rewrite Hnone. reflexivity. }
    rewrite Hsame. split; [reflexivity |]. split; [exact Hnone |].
    apply Hno. intros Hgold. apply Hk.
    assert (Hg : Dict.get (fst (index_ground_truth (variant t) gt)) pmid =
                 Some (gold_of (variant t) gt pmid)).
    { rewrite index_get. destruct (in_dec eq_dec pmid (map fst gt));
        [reflexivity | contradiction]. }
    exact (@gold_entry_seeded (variant t) gt pmid _ entry Hg Hgold).
  - intros l Hl'. rewrite tally_incr_if_present.
    destruct (eq_dec (key_of (variant t) entry) l); [congruence | reflexivity].
Qed.

Lemma predicted_incremented_iff_seeded_witness :
  exists c',
    score_item (variant RE621) (tl Sample.entity_vocabulary) []
      (fst (index_ground_truth (variant RE621) Sample.gt_D1)) "D1"
      (initial_counters (variant RE621) Sample.gt_D1)
      (Sample.tags "Disease" "Gene") = inr c' /\
    predicted c' = [(("Gene", "Disease"), 0)].
Proof.
  destruct (@predicted_incremented_iff_seeded RE621
              (tl Sample.entity_vocabulary) [] Sample.gt_D1 "D1"
              (initial_counters (variant RE621) Sample.gt_D1)
              (Sample.tags "Disease" "Gene") ("Disease", "Gene"))
    as (c' & Hrun & _ & Hno & _).
  - left. reflexivity.
  - split; reflexivity.
  - reflexivity.
  - reflexivity.
  - exists c'. split; [exact Hrun |].
    destruct Hno as (Hsame & _).
    + vm_compute. intros [H | []]. discriminate H.
    + rewrite Hsame. reflexivity.
Defined.

(** C5.  When a routine returns its metrics, the loop over the predictions
    has returned its counters, and in them no label has more true positives
    than predictions. *)
Theorem predicted_at_least_true_positives
    (t : task) (load_entity_labels load_relation_labels : list string)
    (gt : ground_truth) (preds : predictions) (m : metrics) :
  run t load_entity_labels load_relation_labels gt preds = inr m ->
  exists c,
    count (variant t) (tl load_entity_labels) (tl load_relation_labels)
      gt preds = inr c /\
    forall l, tally_of (true_positives c) l <= tally_of (predicted c) l.
Proof.
  rewrite run_unfold, evaluation_unfold. intros Hrun.
  apply bind_inr in Hrun as (c & Hc & _).
  exists c. split; [exact Hc |]. exact (count_dominated _ _ _ _ _ Hc).
Qed.

Lemma predicted_at_least_true_positives_witness :
  exists c,
    count (variant NER) (tl Sample.entity_vocabulary)
      (tl Sample.relation_vocabulary) Sample.gt_D1
      [("D1", Sample.with_entities [Sample.raw_gene; Sample.raw_gene])] =
    inr c /\
    forall l, tally_of (true_positives c) l <= tally_of (predicted c) l.
Proof.
  destruct (NER_evaluation Sample.entity_vocabulary Sample.gt_D1
              [("D1", Sample.with_entities [Sample.raw_gene; Sample.raw_gene])])
    as [e | m] eqn:Hrun.
  - vm_compute in Hrun. discriminate Hrun.
  - exact (@predicted_at_least_true_positives NER Sample.entity_vocabulary
             Sample.relation_vocabulary Sample.gt_D1 _ m Hrun).
Defined.

(** C3.  When the loop over the predictions has returned its counters and
    the ground truth has at least one label, the routine returns metrics
    whose micro precision is ΣTP / (ΣPredicted + ε), whose micro recall is
    ΣTP / (ΣAnnotated + ε) and whose micro F1 is
    2 · ((P · R) / (P + R + ε)), the sums being the totals of the three
    counters, in binary64 arithmetic; ε is the double nearest to 10^-10 and
    is added in denominators only. *)
Theorem micro_metrics_formula
    (t : task) (load_entity_labels load_relation_labels : list string)
    (gt : ground_truth) (preds : predictions)
    (c : counters (Key (variant t))) :
  count (variant t) (tl load_entity_labels) (tl load_relation_labels)
    gt preds = inr c ->
  gold_labels (variant t) gt <> [] ->
  exists m,
    run t load_entity_labels load_relation_labels gt preds = inr m /\
    precision_micro m =
      PyFloat.div (PyFloat.of_Z (total (true_positives c)))
        (PyFloat.add (PyFloat.of_Z (total (predicted c))) PyFloat.eps) /\
    recall_micro m =
      PyFloat.div (PyFloat.of_Z (total (true_positives c)))
        (PyFloat.add
           (PyFloat.of_Z (total (snd (index_ground_truth (variant t) gt))))
           PyFloat.eps) /\
    f1_micro m =
      PyFloat.mul (PyFloat.of_Z 2)
        (PyFloat.div (PyFloat.mul (precision_micro m) (recall_micro m))
           (PyFloat.add (PyFloat.add (precision_micro m) (recall_micro m))
              PyFloat.eps)) /\
    PyFloat.eps = PyFloat.div (PyFloat.of_Z 1) (PyFloat.of_Z (10 ^ 10)).
Proof.
  intros Hc Hne. rewrite run_unfold, evaluation_unfold, Hc. cbn [bind].
  rewrite aggregate_seeded.
  - fold (gold_labels (variant t) gt).
    destruct (Z.of_nat (List.length (gold_labels (variant t) gt)) =? 0) eqn:Hz.
    + exfalso. apply Hne. apply Z.eqb_eq in Hz.
      destruct (gold_labels (variant t) gt); [reflexivity | discriminate].
    + eexists. split; [reflexivity |].
      cbn [precision_micro recall_micro f1_micro].
      split; [reflexivity |]. split; [reflexivity |]. split; [reflexivity |].
      vm_compute. reflexivity.
  - apply NoDup_gold_labels.
  - exact (count_seeded _ _ _ _ _ Hc).
Qed.

Lemma micro_metrics_formula_witness :
  exists m,
    run NER Sample.entity_vocabulary Sample.relation_vocabulary Sample.gt_D1
      [("D1", Sample.with_entities [Sample.raw_gene])] = inr m /\
    precision_micro m =
      PyFloat.div (PyFloat.of_Z 1)
        (PyFloat.add (PyFloat.of_Z 1) PyFloat.eps).
Proof.
  destruct (@micro_metrics_formula NER Sample.entity_vocabulary
              Sample.relation_vocabulary Sample.gt_D1
              [("D1", Sample.with_entities [Sample.raw_gene])]
              {| predicted := [("Gene", 1)];
                 true_positives := [("Gene", 1)] |})
    as (m & Hrun & Hp & _).
  - reflexivity.
  - discriminate.
  - exists m. split; [exact Hrun | exact Hp].
Defined.

(** C4.  Under the same conditions the three macro values are the
    unweighted means (the float sum in label order, divided by the number
    of labels) of the per-label smoothed precision, recall and F1, taken
    over the labels observed in ground truth: a list without repetition
    that holds a label exactly when some gold item of some document is
    counted under it, whatever the predictions are. *)
Theorem macro_metrics_are_label_means
    (t : task) (load_entity_labels load_relation_labels : list string)
    (gt : ground_truth) (preds : predictions)
    (c : counters (Key (variant t))) :
  count (variant t) (tl load_entity_labels) (tl load_relation_labels)
    gt preds = inr c ->
  gold_labels (variant t) gt <> [] ->
  exists m,
    run t load_entity_labels load_relation_labels gt preds = inr m /\
    precision_macro m =
      float_mean (map (label_precision c) (gold_labels (variant t) gt)) /\
    recall_macro m =
      float_mean
        (map (label_recall (snd (index_ground_truth (variant t) gt)) c)
           (gold_labels (variant t) gt)) /\
    f1_macro m =
      float_mean
        (map (label_f1 (snd (index_ground_truth (variant t) gt)) c)
           (gold_labels (variant t) gt)) /\
    NoDup (gold_labels (variant t) gt) /\
    (forall l,
        In l (gold_labels (variant t) gt) <->
        exists pmid a e,
          In (pmid, a) gt /\ In e (gold (variant t) a) /\
          key_of (variant t) e = l).
Proof.
  intros Hc Hne. rewrite run_unfold, evaluation_unfold, Hc. cbn [bind].
  rewrite aggregate_seeded.
  - fold (gold_labels (variant t) gt).
    destruct (Z.of_nat (List.length (gold_labels (variant t) gt)) =? 0) eqn:Hz.
    + exfalso. apply Hne. apply Z.eqb_eq in Hz.
      destruct (gold_labels (variant t) gt); [reflexivity | discriminate].
    + eexists. split; [reflexivity |]. cbn [precision_macro recall_macro f1_macro].
      split; [reflexivity |]. split; [reflexivity |]. split; [reflexivity |].
      split; [apply NoDup_gold_labels | apply in_gold_labels].
  - apply NoDup_gold_labels.
  - exact (count_seeded _ _ _ _ _ Hc).
Qed.

Lemma macro_metrics_are_label_means_witness :
  exists m,
    run NER Sample.entity_vocabulary Sample.relation_vocabulary Sample.gt_D1
      [("D1", Sample.with_entities [Sample.raw_gene; Sample.raw_gene])] =
    inr m /\
    recall_macro m =
      PyFloat.div
        (PyFloat.add (PyFloat.of_Z 0)
           (PyFloat.div (PyFloat.of_Z 2)
              (PyFloat.add (PyFloat.of_Z 1) PyFloat.eps)))
        (PyFloat.of_Z 1).
Proof.
  destruct (@macro_metrics_are_label_means NER Sample.entity_vocabulary
              Sample.relation_vocabulary Sample.gt_D1
              [("D1", Sample.with_entities [Sample.raw_gene; Sample.raw_gene])]
              {| predicted := [("Gene", 2)];
                 true_positives := [("Gene", 2)] |})
    as (m & Hrun & _ & Hr & _).
  - reflexivity.
  - discriminate.
  - exists m. split; [exact Hrun | exact Hr].
Defined.

(** C6.  A run whose predictions hold an item that carries a label or a
    predicate outside the legal vocabulary (the loaded sequence without its
    first entry) returns no metrics: it raises.  The item fails a legality
    check that names a field value of the item outside the vocabulary, and
    when everything before the item was processed without error the run
    raises the illegal-label error with the document id and that value. *)
Theorem illegal_label_aborts_run
    (t : task) (load_entity_labels load_relation_labels : list string)
    (gt : ground_truth) (preds : predictions)
    (pmid : string) (pa : predicted_article)
    (items : list (Raw (variant t)))
    (raw : Raw (variant t)) (entry : Entry (variant t)) :
  In (pmid, pa) preds ->
  predicted_items (variant t) pa = Some items ->
  In raw items ->
  read (variant t) raw = Some entry ->
  carries_illegal t (tl load_entity_labels) (tl load_relation_labels) entry ->
  (exists e,
      run t load_entity_labels load_relation_labels gt preds = inl e) /\
  exists r value,
    illegal (variant t) (tl load_entity_labels) (tl load_relation_labels)
      entry = Some (r, value) /\
    ((In value (entity_label_fields t entry) /\
      ~ In value (tl load_entity_labels)) \/
     (In value (predicate_fields t entry) /\
      ~ In value (tl load_relation_labels))) /\
    forall before after ib ia c0 c1,
      preds = before ++ (pmid, pa) :: after ->
      items = ib ++ raw :: ia ->
      for_each
        (score_article (variant t) (tl load_entity_labels)
           (tl load_relation_labels) (fst (index_ground_truth (variant t) gt)))
        before (initial_counters (variant t) gt) = inr c0 ->
      for_each
        (score_item (variant t) (tl load_entity_labels)
           (tl load_relation_labels) (fst (index_ground_truth (variant t) gt))
           pmid)
        ib c0 = inr c1 ->
      run t load_entity_labels load_relation_labels gt preds =
      inl (NameError pmid r value).
Proof.
  intros Hdoc Hitems Hraw Hread Hbad.
  destruct (@illegal_complete t _ _ entry Hbad) as (r & value & Hill).
  split.
  - rewrite run_unfold. apply evaluation_stuck with (doc := (pmid, pa));
      [| exact Hdoc].
    intros c. unfold score_article. rewrite Hitems.
    apply for_each_stuck with (x := raw); [| exact Hraw].
    intros s. exists (NameError pmid r value).
    apply score_item_illegal with (entry := entry); assumption.
  - exists r, value. split; [exact Hill |].
    split; [exact (@illegal_sound t _ _ entry r value Hill) |].
    intros before after ib ia c0 c1 -> Hsplit Hbefore Hib.
    rewrite run_unfold.
    eapply evaluation_first_error; try eassumption.
    apply score_item_illegal with (entry := entry); assumption.
Qed.

Lemma illegal_label_aborts_run_witness :
  exists e,
    run NER Sample.entity_vocabulary Sample.relation_vocabulary Sample.gt_D1
      [("D1", Sample.with_entities [Sample.raw_gene; Sample.raw_xyz])] =
    inl e.
Proof.
  refine (proj1 (@illegal_label_aborts_run NER Sample.entity_vocabulary
                   Sample.relation_vocabulary Sample.gt_D1
                   [("D1", Sample.with_entities
                             [Sample.raw_gene; Sample.raw_xyz])]
                   "D1" (Sample.with_entities [Sample.raw_gene; Sample.raw_xyz])
                   [Sample.raw_gene; Sample.raw_xyz] Sample.raw_xyz
                   (0, 5, "title", "BRCA1", "XYZ") _ _ _ _ _)).
  - left. reflexivity.
  - reflexivity.
  - right. left. reflexivity.
  - reflexivity.
  - left. exists "XYZ". split; [left; reflexivity |].
    simpl. intros [H | [H | []]]; discriminate H.
Defined.

(** The run of the sample above raises the illegal-label error that names
    document "D1" and the value "XYZ". *)
Example illegal_label_names_document_and_value :
  run NER Sample.entity_vocabulary Sample.relation_vocabulary Sample.gt_D1
    [("D1", Sample.with_entities [Sample.raw_gene; Sample.raw_xyz])] =
  inl (NameError "D1" Label "XYZ").
Proof. reflexivity. Qed.

(** C7, as stated, fails: document "D2" is not in the ground truth, its
    list of predicted entities is empty, and the run returns metrics. *)
Lemma absent_document_without_items_is_scored :
  ~ In "D2" (map fst Sample.gt_D1) /\
  exists m,
    run NER Sample.entity_vocabulary Sample.relation_vocabulary Sample.gt_D1
      [("D1", Sample.with_entities [Sample.raw_gene]);
       ("D2", Sample.with_entities [])] = inr m.
Proof.
  split.
  - simpl. intros [H | []]. discriminate H.
  - eexists. vm_compute. reflexivity.
Qed.

(** C7, amended.  A run whose predictions hold a document id that the
    ground truth does not have raises, and returns no metrics, whenever that
    document's predicted list is not the empty list (it has an item, or the
    field is absent).  When the documents before it were processed without
    error and its first item passes the reading of its fields and the
    legality checks, what is raised is the [KeyError] of the lookup of the
    document id.  A document with an empty list is never looked up. *)
Theorem missing_document_aborts_run
    (t : task) (load_entity_labels load_relation_labels : list string)
    (gt : ground_truth) (preds : predictions)
    (pmid : string) (pa : predicted_article) :
  In (pmid, pa) preds ->
  ~ In pmid (map fst gt) ->
  predicted_items (variant t) pa <> Some [] ->
  (exists e,
      run t load_entity_labels load_relation_labels gt preds = inl e) /\
  forall before after raw rest entry c0,
    preds = before ++ (pmid, pa) :: after ->
    predicted_items (variant t) pa = Some (raw :: rest) ->
    read (variant t) raw = Some entry ->
    illegal (variant t) (tl load_entity_labels) (tl load_relation_labels)
      entry = None ->
    for_each
      (score_article (variant t) (tl load_entity_labels)
         (tl load_relation_labels) (fst (index_ground_truth (variant t) gt)))
      before (initial_counters (variant t) gt) = inr c0 ->
    run t load_entity_labels load_relation_labels gt preds =
    inl (KeyError pmid).
Proof.
  intros Hdoc Habsent Hitems.
  assert (Hg : Dict.get (fst (index_ground_truth (variant t) gt)) pmid = None).
  { rewrite index_get. destruct (in_dec eq_dec pmid (map fst gt));
      [contradiction | reflexivity]. }
  split.
  - rewrite run_unfold. apply evaluation_stuck with (doc := (pmid, pa));
      [| exact Hdoc].
    intros c. unfold score_article.
    destruct (predicted_items (variant t) pa) as [[| raw rest] |].
    + contradiction.
    + cbn [for_each].
      destruct (@score_item_unknown_document (variant t)
                  (tl load_entity_labels) (tl load_relation_labels)
                  _ pmid c raw Hg) as (e & He).
      exists e. rewrite He. reflexivity.
    + eexists. reflexivity.
  - intros before after raw rest entry c0 -> Hfirst Hread Hlegal Hbefore.
    rewrite run_unfold.
    apply evaluation_first_error
      with (items := raw :: rest) (ib := []) (raw := raw) (ia := rest)
           (c0 := c0) (c1 := c0);
      try assumption; try reflexivity.
    unfold score_item. rewrite Hread, Hlegal, Hg. reflexivity.
Qed.

Lemma missing_document_aborts_run_witness :
  exists e,
    run NER Sample.entity_vocabulary Sample.relation_vocabulary Sample.gt_D1
      [("D1", Sample.with_entities [Sample.raw_gene]);
       ("D2", Sample.with_entities [Sample.raw_gene])] = inl e.
Proof.
  refine (proj1 (@missing_document_aborts_run NER Sample.entity_vocabulary
                   Sample.relation_vocabulary Sample.gt_D1
                   [("D1", Sample.with_entities [Sample.raw_gene]);
                    ("D2", Sample.with_entities [Sample.raw_gene])]
                   "D2" (Sample.with_entities [Sample.raw_gene]) _ _ _)).
  - right. left. reflexivity.
  - simpl. intros [H | []]. discriminate H.
  - discriminate.
Defined.

(** The run of the sample above raises the bare [KeyError] of "D2". *)
Example missing_document_error :
  run NER Sample.entity_vocabulary Sample.relation_vocabulary Sample.gt_D1
    [("D1", Sample.with_entities [Sample.raw_gene]);
     ("D2", Sample.with_entities [Sample.raw_gene])] = inl (KeyError "D2").
Proof. reflexivity. Qed.

(** A tuple of the document's list, predicted [k] times in a row, is
    counted [k] times in both counters. *)
Lemma repeated_item_loop (V : Variant) (ents rels : list string)
    (gt : ground_truth) (pmid : string) (raw : Raw V) (entry : Entry V)
    (k : nat) :
  In pmid (map fst gt) ->
  read V raw = Some entry ->
  illegal V ents rels entry = None ->
  In entry (gold_of V gt pmid) ->
  forall c, seeded (gold_labels V gt) c ->
  exists c',
    for_each (score_item V ents rels (fst (index_ground_truth V gt)) pmid)
      (repeat raw k) c = inr c' /\
    tally_of (true_positives c') (key_of V entry) =
      tally_of (true_positives c) (key_of V entry) + Z.of_nat k /\
    tally_of (predicted c') (key_of V entry) =
      tally_of (predicted c) (key_of V entry) + Z.of_nat k.
Proof.
  intros Hdoc Hread Hlegal Hgold.
  induction k as [| k IH]; intros c Hseed.
  - exists c. simpl. rewrite !Z.add_0_r. repeat split.
  - destruct (@score_item_returns V ents rels gt pmid c raw entry
                Hdoc Hseed Hread Hlegal) as (c1 & Hstep & Hpred & Hyes & _).
    specialize (Hyes Hgold).
    assert (Hseed1 : seeded (gold_labels V gt) c1).
    { eapply score_item_seeded; eassumption. }
    destruct (IH c1 Hseed1) as (c' & Hloop & Htp & Hp).
    exists c'. cbn [repeat for_each]. rewrite Hstep. cbn [bind].
    split; [exact Hloop |]. rewrite Htp, Hp, Hpred.
    rewrite (@tally_incr _ _ _ _ _ (key_of V entry) Hyes).
    rewrite tally_incr_if_present.
    assert (Hkey : In (key_of V entry) (Dict.keys (predicted c))).
    { destruct Hseed as [-> _].
      assert (Hg : Dict.get (fst (index_ground_truth V gt)) pmid =
                   Some (gold_of V gt pmid)).
      { rewrite index_get. destruct (in_dec eq_dec pmid (map fst gt));
          [reflexivity | contradiction]. }
      exact (@gold_entry_seeded V gt pmid _ entry Hg Hgold). }
    destruct (eq_dec (key_of V entry) (key_of V entry)); [| contradiction].
    destruct (in_dec eq_dec (key_of V entry) (Dict.keys (predicted c)));
      [| contradiction].
    split; lia.
Qed.

(** C10.  True positives are counted by a membership test that removes
    nothing: a validated item whose tuple is in the ground-truth list of its
    document, predicted [k] times in a row, adds [k] true positives under
    its label.  On the sample, the one gold entity predicted twice gives 2
    true positives against 1 annotated entity, and the micro and the macro
    recall the routine returns are greater than 1. *)
Theorem repeated_prediction_counts_each_time :
  (forall (t : task) (entity_labels relation_labels : list string)
          (gt : ground_truth) (pmid : string) (a : article)
          (c : counters (Key (variant t)))
          (raw : Raw (variant t)) (entry : Entry (variant t)) (k : nat),
      NoDup (map fst gt) -> In (pmid, a) gt ->
      seeded (gold_labels (variant t) gt) c ->
      read (variant t) raw = Some entry ->
      illegal (variant t) entity_labels relation_labels entry = None ->
      In entry (gold (variant t) a) ->
      exists c',
        for_each
          (score_item (variant t) entity_labels relation_labels
             (fst (index_ground_truth (variant t) gt)) pmid)
          (repeat raw k) c = inr c' /\
        tally_of (true_positives c') (key_of (variant t) entry) =
        tally_of (true_positives c) (key_of (variant t) entry) + Z.of_nat k) /\
  snd (index_ground_truth (variant NER) Sample.gt_D1) = [("Gene", 1)] /\
  count (variant NER) (tl Sample.entity_vocabulary)
    (tl Sample.relation_vocabulary) Sample.gt_D1
    [("D1", Sample.with_entities [Sample.raw_gene; Sample.raw_gene])] =
  inr {| predicted := [("Gene", 2)]; true_positives := [("Gene", 2)] |} /\
  exists m,
    run NER Sample.entity_vocabulary Sample.relation_vocabulary Sample.gt_D1
      [("D1", Sample.with_entities [Sample.raw_gene; Sample.raw_gene])] =
    inr m /\
    PyFloat.ltb (PyFloat.of_Z 1) (recall_micro m) = true /\
    PyFloat.ltb (PyFloat.of_Z 1) (recall_macro m) = true.
Proof.
  split; [| split; [reflexivity | split; [reflexivity |]]].
  - intros t entity_labels relation_labels gt pmid a c raw entry k
           Hnd Hdoc Hseed Hread Hlegal Hgold.
    assert (Hin : In pmid (map fst gt)).
    { change pmid with (fst (pmid, a)). apply in_map. exact Hdoc. }
    rewrite <- (@gold_of_unique (variant t) gt pmid a Hnd Hdoc) in Hgold.
    destruct (@repeated_item_loop (variant t) entity_labels relation_labels
                gt pmid raw entry k Hin Hread Hlegal Hgold c Hseed)
      as (c' & Hloop & Htp & _).
    exists c'. split; assumption.
  - eexists. split; [vm_compute; reflexivity |].
    split; vm_compute; reflexivity.
Qed.

Lemma repeated_prediction_counts_each_time_witness :
  exists c',
    for_each
      (score_item (variant NER) (tl Sample.entity_vocabulary) []
         (fst (index_ground_truth (variant NER) Sample.gt_D1)) "D1")
      (repeat Sample.raw_gene 3%nat)
      (initial_counters (variant NER) Sample.gt_D1) = inr c' /\
    tally_of (true_positives c') "Gene" = 3.
Proof.
  refine (proj1 repeated_prediction_counts_each_time NER
            (tl Sample.entity_vocabulary) [] Sample.gt_D1 "D1"
            Sample.article_D1
            (initial_counters (variant NER) Sample.gt_D1)
            Sample.raw_gene Sample.gene 3%nat _ _ _ _ _ _).
  - repeat constructor. simpl. tauto.
  - left. reflexivity.
  - split; reflexivity.
  - reflexivity.
  - reflexivity.
  - left. reflexivity.
Defined.

(** C8.  With a subtask that is none of "6.2.1", "6.2.2", "6.2.3",
    [compute_metrics] does not raise: it hands the [ValueError] object back
    as its return value (line 31 has [return] where the voter has [raise]).
    The voter raises its [ValueError] only when it reaches a relation;
    prediction sets without relations give the empty mapping. *)
Theorem unsupported_subtask_is_returned :
  (forall (load_entity_labels load_relation_labels : list string)
          (gt : ground_truth) (inference_results : predictions),
      compute_metrics load_entity_labels load_relation_labels gt
        inference_results {| model_type := "re"; subtask := "6.2.4" |} =
      inr (ExceptionObject (ValueError "No matching subtask"))) /\
  (forall subtask_name,
      perform_relation_level_inference "6.2.4" subtask_name
        [[("D1", Some [])]; []] = inr []) /\
  (forall subtask_name r,
      perform_relation_level_inference "6.2.4" subtask_name
        [[("D1", Some [r])]; []] =
      inl (ValueError "Unsupported subtask: 6.2.4")).
Proof.
  split; [| split]; intros; reflexivity.
Qed.

(** C9, as stated, fails: of four prediction sets only the first proposes
    the pair (Gene, Disease) for "D1", and it lists it twice; one model
    proposes the key, the threshold is 2, and the key is retained. *)
Lemma repeated_relation_outvotes_majority :
  models_proposing "6.2.1" ("D1", ["Gene"; "Disease"])
    [[("D1", Some [Sample.tags "Gene" "Disease"; Sample.tags "Gene" "Disease"])];
     []; []; []] = 1%nat /\
  math_ceil_half 4 = 2 /\
  perform_relation_level_inference "6.2.1" "binary_tag_based_relations"
    [[("D1", Some [Sample.tags "Gene" "Disease"; Sample.tags "Gene" "Disease"])];
     []; []; []] =
  inr [("D1", [Sample.tags "Gene" "Disease"])].
Proof. repeat split. Qed.

(** C9, amended.  When the voter returns, a paper's surviving relations are
    exactly the first-encountered relation of every key of that paper whose
    number of votes (the relation occurrences filed under the key over all N
    prediction sets, repeats within one set included) is at least
    ceil(N/2) = (N + 1) div 2.  For N = 4 a key with one vote is excluded and
    a key with two votes is included.  When no prediction set files two
    relations under a key, the votes of the key are as many as the sets
    that propose it. *)
Theorem ensemble_keeps_keys_by_vote_count
    (the_subtask subtask_name : string) (preds : list model_predictions)
    (out : ensemble_results) :
  perform_relation_level_inference the_subtask subtask_name preds = inr out ->
  (forall paper_id r,
      In r (survivors out paper_id) <->
      exists k,
        fst k = paper_id /\
        hd_error (votes_for the_subtask k preds) = Some r /\
        math_ceil_half (Z.of_nat (List.length preds)) <=
        Z.of_nat (List.length (votes_for the_subtask k preds))) /\
  math_ceil_half (Z.of_nat (List.length preds)) =
  (Z.of_nat (List.length preds) + 1) / 2 /\
  (List.length preds = 4%nat ->
   forall k r,
     hd_error (votes_for the_subtask k preds) = Some r ->
     (List.length (votes_for the_subtask k preds) = 1%nat ->
      ~ In r (survivors out (fst k))) /\
     (List.length (votes_for the_subtask k preds) = 2%nat ->
      In r (survivors out (fst k)))) /\
  (forall k,
      (forall mp, In mp preds ->
         (List.length (filter (has_key the_subtask k) (proposals_of mp)) <= 1)%nat) ->
      List.length (votes_for the_subtask k preds) =
      models_proposing the_subtask k preds).
Proof.
  intros Hrun. split; [| split; [| split]].
  - intros paper_id r. apply survivors_spec with (subtask_name := subtask_name).
    exact Hrun.
  - apply math_ceil_half_eq.
  - intros Hfour k r Hhd. split; intros Hlen.
    + intros Hin.
      apply (@survivors_spec the_subtask subtask_name preds out (fst k) r Hrun)
        in Hin as (k' & Hfst & Hhd' & Hthr).
      rewrite (@representative_key the_subtask preds k k' r Hhd Hhd' Hfst)
        in Hthr.
      rewrite Hfour, Hlen in Hthr. vm_compute in Hthr. apply Hthr. reflexivity.
    + apply (@survivors_spec the_subtask subtask_name preds out (fst k) r Hrun).
      exists k. split; [reflexivity |]. split; [exact Hhd |].
      rewrite Hfour, Hlen. vm_compute. discriminate.
  - intros k. apply votes_are_models.
Qed.

Lemma ensemble_keeps_keys_by_vote_count_witness :
  In (Sample.tags "Gene" "Disease")
     (survivors [("D1", [Sample.tags "Gene" "Disease"])] "D1") <->
  exists k,
    fst k = "D1" /\
    hd_error
      (votes_for "6.2.1" k
         [[("D1", Some [Sample.tags "Gene" "Disease"])];
          [("D1", Some [Sample.tags "Gene" "Disease";
                        Sample.tags "Disease" "Gene"])];
          [("D1", Some [])]]) = Some (Sample.tags "Gene" "Disease") /\
    math_ceil_half 3 <=
    Z.of_nat
      (List.length
         (votes_for "6.2.1" k
            [[("D1", Some [Sample.tags "Gene" "Disease"])];
             [("D1", Some [Sample.tags "Gene" "Disease";
                           Sample.tags "Disease" "Gene"])];
             [("D1", Some [])]])).
Proof.
  refine (proj1 (@ensemble_keeps_keys_by_vote_count "6.2.1"
                   "binary_tag_based_relations"
                   [[("D1", Some [Sample.tags "Gene" "Disease"])];
                    [("D1", Some [Sample.tags "Gene" "Disease";
                                  Sample.tags "Disease" "Gene"])];
                    [("D1", Some [])]]
                   [("D1", [Sample.tags "Gene" "Disease"])] _)
            "D1" (Sample.tags "Gene" "Disease")).
  reflexivity.
Defined.

(** * Further properties of the evaluation *)

Lemma for_each_returns_Forall {S X} (P : S -> Prop) (Q : X -> Prop)
    (body : S -> X -> result S) :
  (forall s x, P s -> Q x -> exists s', body s x = inr s' /\ P s') ->
  forall xs s, P s -> Forall Q xs ->
  exists s', for_each body xs s = inr s' /\ P s'.
Proof.
  intros Hstep xs. induction xs as [| x xs IH]; intros s Hs Hall.
  - exists s. split; [reflexivity | exact Hs].
  - inversion Hall as [| ? ? Hx Hxs]; subst.
    destruct (Hstep s x Hs Hx) as (s1 & H1 & Hs1).
    destruct (IH s1 Hs1 Hxs) as (s' & H2 & Hs').
    exists s'. simpl. rewrite H1. simpl. split; assumption.
Qed.

Lemma for_each_inr_Forall {S X} (Q : X -> Prop) (body : S -> X -> result S) :
  (forall s x s', body s x = inr s' -> Q x) ->
  forall xs s s', for_each body xs s = inr s' -> Forall Q xs.
Proof.
  intros Hstep xs. induction xs as [| x xs IH]; simpl; intros s s' Hrun.
  - constructor.
  - apply bind_inr in Hrun as (s1 & H1 & H2). constructor.
    + eapply Hstep. exact H1.
    + eapply IH. exact H2.
Qed.

Lemma how_many_nil {X} (p : X -> bool) : how_many p [] = 0.
Proof. reflexivity. Qed.

Lemma how_many_cons {X} (p : X -> bool) (x : X) (xs : list X) :
  how_many p (x :: xs) = (if p x then 1 else 0) + how_many p xs.
Proof.
  unfold how_many. simpl. destruct (p x); simpl List.length; lia.
Qed.

Lemma how_many_app {X} (p : X -> bool) (xs ys : list X) :
  how_many p (xs ++ ys) = how_many p xs + how_many p ys.
Proof.
  unfold how_many. rewrite filter_app, length_app. lia.
Qed.

Lemma how_many_nonneg {X} (p : X -> bool) (xs : list X) : 0 <= how_many p xs.
Proof. unfold how_many. lia. Qed.

Lemma how_many_ext {X} (p q : X -> bool) (xs : list X) :
  (forall x, In x xs -> p x = q x) -> how_many p xs = how_many q xs.
Proof.
  intros Hpq. unfold how_many. rewrite (filter_ext_in p q xs Hpq). reflexivity.
Qed.

Lemma how_many_none {X} (p : X -> bool) (xs : list X) :
  (forall x, In x xs -> p x = false) -> how_many p xs = 0.
Proof.
  intros Hp. induction xs as [| x xs IH].
  - reflexivity.
  - rewrite how_many_cons, (Hp x (or_introl eq_refl)), IH; [reflexivity |].
    intros y Hy. apply Hp. right. exact Hy.
Qed.

Lemma how_many_Permutation {X} (p : X -> bool) (xs ys : list X) :
  Permutation xs ys -> how_many p xs = how_many p ys.
Proof.
  intros Hperm. induction Hperm as [| x xs ys _ IH | x y xs | xs ys zs _ IH1 _ IH2].
  - reflexivity.
  - rewrite !how_many_cons, IH. reflexivity.
  - rewrite !how_many_cons. lia.
  - rewrite IH1. exact IH2.
Qed.

(** Two counters with the same distinct keys in the same order and the same
    count for every label are the same dictionary. *)
Lemma counts_ext {K} `{EqDec K} (d d' : counts K) :
  NoDup (Dict.keys d) ->
  Dict.keys d = Dict.keys d' ->
  (forall l, tally_of d l = tally_of d' l) ->
  d = d'.
Proof.
  revert d'. induction d as [| [k v] d IH]; intros [| [k' v'] d'] Hnd Hkeys Hall;
    try discriminate.
  - reflexivity.
  - simpl in Hkeys. injection Hkeys as <- Hkeys.
    inversion Hnd as [| ? ? Hk Hd]; subst.
    assert (Hv : v = v').
    { specialize (Hall k). unfold tally_of in Hall. simpl in Hall.
      destruct (eq_dec k k); [exact Hall | contradiction]. }
    subst v'. f_equal. apply IH; [exact Hd | exact Hkeys |].
    intros l. specialize (Hall l). unfold tally_of in *. simpl in Hall.
    destruct (eq_dec l k) as [-> | _]; [| exact Hall].
    assert (H1 : Dict.get d k = None) by (apply get_None_keys; exact Hk).
    assert (H2 : Dict.get d' k = None)
      by (apply get_None_keys; rewrite <- Hkeys; exact Hk).
    rewrite H1, H2. reflexivity.
Qed.

Lemma fold_add_from (vs : list Z) (a : Z) :
  fold_left Z.add vs a = a + fold_left Z.add vs 0.
Proof.
  revert a. induction vs as [| v vs IH]; intros a; simpl.
  - lia.
  - rewrite (IH (a + v)), (IH v). lia.
Qed.

Lemma total_cons {K} (k : K) (v : Z) (d : list (K * Z)) :
  total ((k, v) :: d) = v + total d.
Proof. unfold total. simpl. rewrite fold_add_from. lia. Qed.

Lemma total_set {K} `{EqDec K} (d : counts K) (k : K) (v : Z) :
  total (Dict.set d k v) = total d + v - tally_of d k.
Proof.
  induction d as [| [k' v'] d IH].
  - unfold tally_of. simpl. unfold total. simpl. lia.
  - cbn [Dict.set]. unfold tally_of. cbn [Dict.get].
    destruct (eq_dec k k') as [<- | N].
    + rewrite !total_cons. lia.
    + rewrite !total_cons, IH. unfold tally_of. lia.
Qed.

Lemma tally_bump {K} `{EqDec K} (d : counts K) (k l : K) :
  tally_of (bump d k) l = tally_of d l + (if eq_dec k l then 1 else 0).
Proof.
  unfold bump, tally_of. destruct (Dict.get d k) as [n |] eqn:Hg.
  - destruct (eq_dec k l) as [<- | N].
    + rewrite get_set_same, Hg. reflexivity.
    + rewrite get_set_other by exact N. lia.
  - destruct (eq_dec k l) as [<- | N].
    + rewrite get_set_same, Hg. reflexivity.
    + rewrite get_set_other by exact N. lia.
Qed.

Lemma total_bump {K} `{EqDec K} (d : counts K) (k : K) :
  total (bump d k) = total d + 1.
Proof.
  unfold bump. destruct (Dict.get d k) as [n |] eqn:Hg;
    rewrite total_set; unfold tally_of; rewrite Hg; lia.
Qed.

Lemma bumps_closed_form {K} `{EqDec K} (ks : list K) (d : counts K) (l : K) :
  tally_of (fold_left bump ks d) l =
  tally_of d l + how_many (fun k => if eq_dec k l then true else false) ks /\
  total (fold_left bump ks d) = total d + Z.of_nat (List.length ks).
Proof.
  revert d. induction ks as [| k ks IH]; intros d.
  - simpl. rewrite how_many_nil. lia.
  - cbn [fold_left]. destruct (IH (bump d k)) as [IH1 IH2].
    rewrite IH1, IH2, tally_bump, total_bump, how_many_cons.
    cbn [List.length]. destruct (eq_dec k l); lia.
Qed.

Section RunFacts.
Variable V : Variant.
Variables entity_labels relation_labels : list string.
Variable gt : ground_truth.

Local Abbreviation idx := (fst (index_ground_truth V gt)).
Local Abbreviation labels := (gold_labels V gt).
Local Abbreviation score := (score_item V entity_labels relation_labels idx).
Local Abbreviation score_doc :=
  (score_article V entity_labels relation_labels idx).

(** Everything a returning step tells about its item and its result. *)
Lemma score_item_exact pmid (c c' : counters (Key V)) raw :
  seeded labels c ->
  score pmid c raw = inr c' ->
  exists entry,
    read V raw = Some entry /\
    illegal V entity_labels relation_labels entry = None /\
    In pmid (map fst gt) /\
    predicted c' = incr_if_present (predicted c) (key_of V entry) /\
    (In entry (gold_of V gt pmid) ->
     incr (true_positives c) (key_of V entry) = inr (true_positives c')) /\
    (~ In entry (gold_of V gt pmid) -> true_positives c' = true_positives c).
Proof.
  intros Hseed Hs.
  destruct (@score_item_inr V entity_labels relation_labels idx pmid c raw c' Hs)
    as (entry & gl & Hr & Hl & Hg).
  assert (Hdoc : In pmid (map fst gt)).
  { rewrite index_get in Hg.
    destruct (in_dec eq_dec pmid (map fst gt)); [assumption | discriminate]. }
  destruct (@score_item_returns V entity_labels relation_labels gt pmid c raw
              entry Hdoc Hseed Hr Hl) as (c2 & Hs2 & Hp & Hyes & Hno).
  rewrite Hs in Hs2. injection Hs2 as <-.
  exists entry. repeat split; assumption.
Qed.

(** The counts after the items of one document. *)
Lemma items_closed_form pmid (items : list (Raw V)) (c c' : counters (Key V))
    (l : Key V) :
  seeded labels c ->
  for_each (score pmid) items c = inr c' ->
  tally_of (predicted c') l =
    tally_of (predicted c) l +
    (if in_dec eq_dec l labels
     then how_many (counted_under V l) (read_document V pmid items) else 0) /\
  tally_of (true_positives c') l =
    tally_of (true_positives c) l +
    how_many (fun x => counted_under V l x && in_gold V gt x)
      (read_document V pmid items).
Proof.
  revert c. induction items as [| raw items IH]; intros c Hseed Hrun.
  - simpl in Hrun. injection Hrun as <-. unfold read_document. simpl.
    rewrite !how_many_nil. destruct (in_dec eq_dec l labels); split; lia.
  - cbn [for_each] in Hrun. apply bind_inr in Hrun as (c1 & H1 & H2).
    destruct (score_item_exact pmid raw Hseed H1)
      as (entry & Hr & Hl & Hdoc & Hp & Hyes & Hno).
    assert (Hseed1 : seeded labels c1) by (eapply score_item_seeded; eassumption).
    destruct (IH c1 Hseed1 H2) as [IHp IHt]. rewrite IHp, IHt.
    assert (Hrd : read_document V pmid (raw :: items) =
                  (pmid, entry) :: read_document V pmid items).
    { unfold read_document. cbn [flat_map]. rewrite Hr. reflexivity. }
    rewrite Hrd, !how_many_cons.
    change (counted_under V l (pmid, entry))
      with (if eq_dec (key_of V entry) l then true else false).
    change (in_gold V gt (pmid, entry))
      with (py_in entry (gold_of V gt pmid)).
    rewrite Hp, tally_incr_if_present.
    destruct Hseed as [Hkp Hkt]. rewrite Hkp. split.
    + destruct (eq_dec (key_of V entry) l) as [<- | N].
      * destruct (in_dec eq_dec (key_of V entry) labels); lia.
      * destruct (in_dec eq_dec l labels); lia.
    + destruct (py_in entry (gold_of V gt pmid)) eqn:Hin.
      * apply py_in_true in Hin.
        rewrite (@tally_incr _ _ _ _ _ l (Hyes Hin)).
        destruct (eq_dec (key_of V entry) l); cbn [andb]; lia.
      * apply py_in_false in Hin. rewrite (Hno Hin).
        destruct (eq_dec (key_of V entry) l); cbn [andb]; lia.
Qed.

(** The counts after a list of documents. *)
Lemma documents_closed_form (preds : predictions) (c c' : counters (Key V))
    (l : Key V) :
  seeded labels c ->
  for_each score_doc preds c = inr c' ->
  tally_of (predicted c') l =
    tally_of (predicted c) l +
    (if in_dec eq_dec l labels
     then how_many (counted_under V l) (read_items V preds) else 0) /\
  tally_of (true_positives c') l =
    tally_of (true_positives c) l +
    how_many (fun x => counted_under V l x && in_gold V gt x)
      (read_items V preds).
Proof.
  revert c. induction preds as [| [pmid pa] preds IH]; intros c Hseed Hrun.
  - simpl in Hrun. injection Hrun as <-. unfold read_items. simpl.
    rewrite !how_many_nil. destruct (in_dec eq_dec l labels); split; lia.
  - cbn [for_each] in Hrun. apply bind_inr in Hrun as (c1 & H1 & H2).
    assert (Hseed1 : seeded labels c1) by (eapply score_article_seeded; eassumption).
    destruct (IH c1 Hseed1 H2) as [IHp IHt]. rewrite IHp, IHt.
    unfold score_article in H1.
    unfold read_items. cbn [flat_map fst snd].
    destruct (predicted_items V pa) as [items |]; [| discriminate].
    destruct (items_closed_form pmid items l Hseed H1) as [Hp Ht].
    rewrite Hp, Ht, !how_many_app.
    fold (read_items V preds).
    destruct (in_dec eq_dec l labels); lia.
Qed.

(** A matching item is counted under a seeded label. *)
Lemma in_gold_seeded (x : string * Entry V) :
  in_gold V gt x = true -> In (key_of V (snd x)) labels.
Proof.
  unfold in_gold. intros Hin. apply py_in_true in Hin.
  apply gold_of_all in Hin. rewrite gold_labels_eq, in_keys_bumps.
  left. apply in_map. exact Hin.
Qed.

Lemma score_item_acceptable pmid (c c' : counters (Key V)) raw :
  score pmid c raw = inr c' ->
  acceptable_item V entity_labels relation_labels raw /\
  In pmid (map fst gt).
Proof.
  intros Hs.
  destruct (@score_item_inr V entity_labels relation_labels idx pmid c raw c' Hs)
    as (entry & gl & Hr & Hl & Hg).
  split; [exists entry; split; assumption |].
  rewrite index_get in Hg.
  destruct (in_dec eq_dec pmid (map fst gt)); [assumption | discriminate].
Qed.

Lemma score_article_acceptable (c c' : counters (Key V)) doc :
  score_doc c doc = inr c' ->
  acceptable_document V entity_labels relation_labels gt doc.
Proof.
  destruct doc as [pmid pa]. unfold score_article, acceptable_document.
  cbn [fst snd]. destruct (predicted_items V pa) as [items |]; [| discriminate].
  intros Hrun. exists items. split; [reflexivity |]. split.
  - revert Hrun. apply for_each_inr_Forall.
    intros s x s' Hs. apply (score_item_acceptable _ _ _ Hs).
  - destruct items as [| raw items]; [intros Hne; contradiction |].
    intros _. cbn [for_each] in Hrun. apply bind_inr in Hrun as (c1 & H1 & _).
    apply (score_item_acceptable _ _ _ H1).
Qed.

Lemma acceptable_document_returns (c : counters (Key V)) doc :
  seeded labels c ->
  acceptable_document V entity_labels relation_labels gt doc ->
  exists c', score_doc c doc = inr c' /\ seeded labels c'.
Proof.
  destruct doc as [pmid pa]. intros Hseed (items & Hitems & Hall & Hdoc).
  cbn [fst snd] in *. unfold score_article. rewrite Hitems.
  destruct items as [| raw items].
  - exists c. split; [reflexivity | exact Hseed].
  - assert (Hin : In pmid (map fst gt)) by (apply Hdoc; discriminate).
    apply (@for_each_returns_Forall _ _ (seeded labels)
             (acceptable_item V entity_labels relation_labels));
      [| exact Hseed | exact Hall].
    intros s x Hs (entry & Hr & Hl).
    destruct (@score_item_returns V entity_labels relation_labels gt pmid s x
                entry Hin Hs Hr Hl) as (s' & Hstep & _).
    exists s'. split; [exact Hstep |].
    eapply score_item_seeded; eassumption.
Qed.

Lemma count_returns_iff (preds : predictions) :
  (exists c, count V entity_labels relation_labels gt preds = inr c) <->
  acceptable V entity_labels relation_labels gt preds.
Proof.
  rewrite count_unfold. split.
  - intros (c & Hrun). revert Hrun. apply for_each_inr_Forall.
    intros s x s'. apply score_article_acceptable.
  - intros Hall.
    destruct (@for_each_returns_Forall _ _ (seeded labels)
                (acceptable_document V entity_labels relation_labels gt)
                score_doc
                (fun s x Hs Hx => @acceptable_document_returns s x Hs Hx)
                preds (initial_counters V gt) (initial_seeded V gt) Hall)
      as (c & Hrun & _).
    exists c. exact Hrun.
Qed.

Lemma gold_labels_nil_iff : labels = [] <-> all_gold V gt = [].
Proof.
  rewrite gold_labels_eq. split.
  - intros Hnil. destruct (all_gold V gt) as [| e es] eqn:Hall; [reflexivity |].
    assert (Hin : In (key_of V e)
                    (Dict.keys (fold_left bump (map (key_of V) (e :: es)) [])))
      by (apply in_keys_bumps; left; left; reflexivity).
    rewrite Hnil in Hin. contradiction.
  - intros ->. reflexivity.
Qed.
End RunFacts.

Lemma Forall_Permutation {X} (P : X -> Prop) (xs ys : list X) :
  Permutation xs ys -> Forall P xs -> Forall P ys.
Proof.
  intros Hperm Hall. rewrite Forall_forall in *. intros y Hy.
  apply Hall. apply Permutation_in with (l := ys);
    [apply Permutation_sym; exact Hperm | exact Hy].
Qed.

Lemma keys_nil {K V} (d : list (K * V)) : Dict.keys d = [] -> d = [].
Proof. destruct d; [reflexivity | discriminate]. Qed.

Lemma gold_items_in_gold (V : Variant) (gt : ground_truth)
    (x : string * Entry V) :
  In x (gold_items V gt) -> in_gold V gt x = true.
Proof.
  unfold gold_items, in_gold. rewrite in_flat_map.
  intros ([pmid a] & Hdoc & Hx). cbn [fst snd] in Hx.
  apply in_map_iff in Hx as (e & <- & He). cbn [fst snd].
  apply py_in_true. unfold gold_of. apply in_flat_map.
  exists (pmid, a). split; [exact Hdoc |]. cbn [fst snd].
  destruct (eq_dec pmid pmid); [exact He | contradiction].
Qed.

Lemma gold_items_entries (V : Variant) (gt : ground_truth) :
  map snd (gold_items V gt) = all_gold V gt.
Proof.
  unfold gold_items, all_gold. induction gt as [| [pmid a] gt IH].
  - reflexivity.
  - cbn [flat_map fst snd]. rewrite map_app, IH, map_map. cbn [snd].
    rewrite map_id. reflexivity.
Qed.

Lemma how_many_map {X Y} (f : X -> Y) (p : Y -> bool) (xs : list X) :
  how_many p (map f xs) = how_many (fun x => p (f x)) xs.
Proof.
  induction xs as [| x xs IH].
  - reflexivity.
  - cbn [map]. rewrite !how_many_cons, IH. reflexivity.
Qed.


Lemma count_closed_form (V : Variant) (entity_labels relation_labels : list string)
    (gt : ground_truth) (preds : predictions)
    (c : counters (Key V)) (l : Key V) :
  count V entity_labels relation_labels gt preds = inr c ->
  tally_of (predicted c) l =
    (if in_dec eq_dec l (gold_labels V gt)
     then how_many (counted_under V l) (read_items V preds)
     else 0) /\
  tally_of (true_positives c) l =
    how_many (fun x => counted_under V l x && in_gold V gt x)
      (read_items V preds).
Proof.
  rewrite count_unfold. intros Hrun.
  destruct (@documents_closed_form V entity_labels relation_labels
              gt preds _ c l (initial_seeded V gt) Hrun) as [Hp Ht].
  rewrite Hp, Ht. unfold initial_counters. cbn [predicted true_positives].
  rewrite !tally_zeros. split; reflexivity.
Qed.

Lemma annotated_closed_form (V : Variant) (gt : ground_truth) (l : Key V) :
  tally_of (snd (index_ground_truth V gt)) l =
    how_many (fun e => if eq_dec (key_of V e) l then true else false)
      (all_gold V gt) /\
  total (snd (index_ground_truth V gt)) =
    Z.of_nat (List.length (all_gold V gt)).
Proof.
  unfold index_ground_truth. rewrite index_from_annotated.
  destruct (bumps_closed_form (map (key_of V) (all_gold V gt)) [] l)
    as [Ht Hs].
  rewrite Ht, Hs, how_many_map, length_map. split; reflexivity.
Qed.

(** X2.  When the loop returns, the predicted count of a label seeded from
    ground truth is the number of predicted items counted under it, a label
    that is not seeded has no count, and the true-positive count of a label
    is the number of predicted items counted under it whose tuple is in the
    ground-truth list of their document. *)
Theorem counters_closed_form
    (t : task) (entity_labels relation_labels : list string)
    (gt : ground_truth) (preds : predictions)
    (c : counters (Key (variant t))) (l : Key (variant t)) :
  count (variant t) entity_labels relation_labels gt preds = inr c ->
  tally_of (predicted c) l =
    (if in_dec eq_dec l (gold_labels (variant t) gt)
     then how_many (counted_under (variant t) l) (read_items (variant t) preds)
     else 0) /\
  tally_of (true_positives c) l =
    how_many (fun x => counted_under (variant t) l x && in_gold (variant t) gt x)
      (read_items (variant t) preds).
Proof.
  intros Hc.
  destruct (@count_closed_form (variant t) entity_labels relation_labels
              gt preds c l Hc) as [Hp Ht].
  split; [exact Hp | exact Ht].
Qed.

Lemma counters_closed_form_witness :
  tally_of
    (predicted
       {| predicted := [("Gene", 2)]; true_positives := [("Gene", 1)] |})
    "Gene" = 2 /\
  tally_of
    (true_positives
       {| predicted := [("Gene", 2)]; true_positives := [("Gene", 1)] |})
    "Gene" = 1.
Proof.
  destruct (@counters_closed_form NER (tl Sample.entity_vocabulary) []
              Sample.gt_D1
              [("D1", Sample.with_entities
                        [Sample.raw_gene;
                         {| start_idx := Some 7; end_idx := Some 9;
                            location := Some "title"; text_span := Some "p53";
                            label := Some "Gene" |}])]
              {| predicted := [("Gene", 2)]; true_positives := [("Gene", 1)] |}
              "Gene" eq_refl) as [Hp Ht].
  split; [exact Hp | exact Ht].
Defined.

(** X3.  The annotated count of a label is the number of gold items counted
    under it, over all the documents of the ground truth, and the counts add
    up to the number of gold items. *)
Theorem annotated_counts_gold_items
    (t : task) (gt : ground_truth) (l : Key (variant t)) :
  tally_of (snd (index_ground_truth (variant t) gt)) l =
    how_many (fun e => if eq_dec (key_of (variant t) e) l then true else false)
      (all_gold (variant t) gt) /\
  total (snd (index_ground_truth (variant t) gt)) =
    Z.of_nat (List.length (all_gold (variant t) gt)).
Proof.
  destruct (annotated_closed_form (variant t) gt l) as [Hl Hsum].
  split; [exact Hl | exact Hsum].
Qed.

(** X4.  When the predicted items are, up to their order, the gold items
    of the ground truth, every label has as many true positives and as many
    predictions as annotations. *)
Theorem perfect_predictions_match_annotations
    (t : task) (entity_labels relation_labels : list string)
    (gt : ground_truth) (preds : predictions)
    (c : counters (Key (variant t))) (l : Key (variant t)) :
  count (variant t) entity_labels relation_labels gt preds = inr c ->
  Permutation (read_items (variant t) preds) (gold_items (variant t) gt) ->
  tally_of (true_positives c) l =
    tally_of (snd (index_ground_truth (variant t) gt)) l /\
  tally_of (predicted c) l =
    tally_of (snd (index_ground_truth (variant t) gt)) l.
Proof.
  intros Hc Hperm.
  destruct (@count_closed_form (variant t) entity_labels relation_labels
              gt preds c l Hc) as [Hp Ht].
  destruct (annotated_closed_form (variant t) gt l) as [Ha _].
  assert (Hgold : how_many (counted_under (variant t) l) (gold_items (variant t) gt) =
                  tally_of (snd (index_ground_truth (variant t) gt)) l).
  { rewrite Ha, <- gold_items_entries, how_many_map. reflexivity. }
  rewrite Hp, Ht.
  rewrite (how_many_Permutation _ Hperm), (how_many_Permutation _ Hperm).
  split.
  - rewrite <- Hgold. apply how_many_ext. intros x Hx.
    rewrite (gold_items_in_gold _ _ _ Hx). apply andb_true_r.
  - destruct (in_dec eq_dec l (gold_labels (variant t) gt)) as [_ | Hn];
      [exact Hgold |].
    rewrite <- Hgold. symmetry. apply how_many_none. intros x Hx.
    unfold counted_under.
    destruct (eq_dec (key_of (variant t) (snd x)) l) as [<- | _];
      [| reflexivity].
    exfalso. apply Hn. apply in_gold_seeded. apply gold_items_in_gold. exact Hx.
Qed.

Lemma perfect_predictions_match_annotations_witness :
  tally_of
    (true_positives
       {| predicted := [("Gene", 1)]; true_positives := [("Gene", 1)] |})
    "Gene" =
  tally_of (snd (index_ground_truth (variant NER) Sample.gt_D1)) "Gene".
Proof.
  refine (proj1 (@perfect_predictions_match_annotations NER
                   (tl Sample.entity_vocabulary) [] Sample.gt_D1
                   [("D1", Sample.with_entities [Sample.raw_gene])]
                   {| predicted := [("Gene", 1)];
                      true_positives := [("Gene", 1)] |}
                   "Gene" eq_refl _)).
  apply Permutation_refl.
Defined.

Lemma read_items_Permutation (V : Variant) (preds preds' : predictions) :
  Permutation preds preds' ->
  Permutation (read_items V preds) (read_items V preds').
Proof. intros Hperm. unfold read_items. apply Permutation_flat_map. exact Hperm. Qed.

(** X5.  The order of the predicted documents does not matter: when the
    loop returns on a list of documents it returns the same counters on any
    reordering of it, and the routine gives the same result. *)
Theorem document_order_irrelevant
    (t : task) (load_entity_labels load_relation_labels : list string)
    (gt : ground_truth) (preds preds' : predictions)
    (c : counters (Key (variant t))) :
  Permutation preds preds' ->
  count (variant t) (tl load_entity_labels) (tl load_relation_labels)
    gt preds = inr c ->
  count (variant t) (tl load_entity_labels) (tl load_relation_labels)
    gt preds' = inr c /\
  run t load_entity_labels load_relation_labels gt preds' =
  run t load_entity_labels load_relation_labels gt preds.
Proof.
  intros Hperm Hc.
  assert (Hacc : acceptable (variant t) (tl load_entity_labels)
                   (tl load_relation_labels) gt preds').
  { apply Forall_Permutation with (xs := preds); [exact Hperm |].
    apply count_returns_iff. exists c. exact Hc. }
  apply count_returns_iff in Hacc as (c' & Hc').
  assert (Heq : c' = c).
  { pose proof (count_seeded _ _ _ _ _ Hc) as [Hkp Hkt].
    pose proof (count_seeded _ _ _ _ _ Hc') as [Hkp' Hkt'].
    pose proof (NoDup_gold_labels (variant t) gt) as Hnd.
    destruct c as [p tp], c' as [p' tp']. cbn [predicted true_positives] in *.
    f_equal.
    - apply counts_ext; [rewrite Hkp'; exact Hnd | congruence |].
      intros l.
      destruct (@count_closed_form (variant t) _ _ gt preds _ l Hc) as [H1 _].
      destruct (@count_closed_form (variant t) _ _ gt preds' _ l Hc') as [H2 _].
      cbn [predicted] in H1, H2. rewrite H1, H2.
      destruct (in_dec eq_dec l (gold_labels (variant t) gt)); [| reflexivity].
      symmetry. apply how_many_Permutation, read_items_Permutation, Hperm.
    - apply counts_ext; [rewrite Hkt'; exact Hnd | congruence |].
      intros l.
      destruct (@count_closed_form (variant t) _ _ gt preds _ l Hc) as [_ H1].
      destruct (@count_closed_form (variant t) _ _ gt preds' _ l Hc') as [_ H2].
      cbn [true_positives] in H1, H2. rewrite H1, H2.
      symmetry. apply how_many_Permutation, read_items_Permutation, Hperm. }
  subst c'. split; [exact Hc' |].
  rewrite !run_unfold, !evaluation_unfold, Hc, Hc'. reflexivity.
Qed.

Lemma document_order_irrelevant_witness :
  run NER Sample.entity_vocabulary Sample.relation_vocabulary Sample.gt_D1
    [("D3", Sample.with_entities []);
     ("D1", Sample.with_entities [Sample.raw_gene])] =
  run NER Sample.entity_vocabulary Sample.relation_vocabulary Sample.gt_D1
    [("D1", Sample.with_entities [Sample.raw_gene]);
     ("D3", Sample.with_entities [])].
Proof.
  refine (proj2 (@document_order_irrelevant NER Sample.entity_vocabulary
                   Sample.relation_vocabulary Sample.gt_D1
                   [("D1", Sample.with_entities [Sample.raw_gene]);
                    ("D3", Sample.with_entities [])]
                   [("D3", Sample.with_entities []);
                    ("D1", Sample.with_entities [Sample.raw_gene])]
                   {| predicted := [("Gene", 1)];
                      true_positives := [("Gene", 1)] |} _ eq_refl)).
  apply perm_swap.
Defined.

(** X6.  Against a ground truth without a gold item every run raises: the
    loop raises, or the macro average divides 0 by 0. *)
Theorem empty_ground_truth_never_scores
    (t : task) (load_entity_labels load_relation_labels : list string)
    (gt : ground_truth) (preds : predictions) :
  all_gold (variant t) gt = [] ->
  (exists e,
      run t load_entity_labels load_relation_labels gt preds = inl e) /\
  (acceptable (variant t) (tl load_entity_labels) (tl load_relation_labels)
     gt preds ->
   run t load_entity_labels load_relation_labels gt preds =
   inl ZeroDivisionError).
Proof.
  intros Hnil.
  assert (Hagg : forall c,
             count (variant t) (tl load_entity_labels)
               (tl load_relation_labels) gt preds = inr c ->
             run t load_entity_labels load_relation_labels gt preds =
             inl ZeroDivisionError).
  { intros c Hc. rewrite run_unfold, evaluation_unfold, Hc. cbn [bind].
    apply gold_labels_nil_iff in Hnil.
    pose proof (count_seeded _ _ _ _ _ Hc) as Hseed.
    unfold gold_labels in Hnil, Hseed. rewrite Hnil in Hseed.
    apply keys_nil in Hnil. rewrite Hnil.
    apply aggregate_without_labels. exact Hseed. }
  split.
  - destruct (count (variant t) (tl load_entity_labels)
                (tl load_relation_labels) gt preds) as [e | c] eqn:Hc.
    + exists e. rewrite run_unfold, evaluation_unfold, Hc. reflexivity.
    + exists ZeroDivisionError. apply (Hagg c). reflexivity.
  - intros Hacc. apply count_returns_iff in Hacc as (c & Hc).
    apply (Hagg c). exact Hc.
Qed.

Lemma empty_ground_truth_never_scores_witness :
  run RE621 Sample.entity_vocabulary Sample.relation_vocabulary
    [("D1", Build_article [Sample.gene] [] [] [])]
    [("D1", Sample.with_binary [])] = inl ZeroDivisionError.
Proof.
  refine (proj2 (@empty_ground_truth_never_scores RE621
                   Sample.entity_vocabulary Sample.relation_vocabulary
                   [("D1", Build_article [Sample.gene] [] [] [])]
                   [("D1", Sample.with_binary [])] eq_refl) _).
  constructor; [| constructor].
  exists []. split; [reflexivity |]. split; [constructor |].
  intros H. contradiction.
Defined.

(** X7.  The first predicted document that lacks the field of the variant
    makes the run raise the [KeyError] that names the document and the
    field: "entities", "binary_tag_based_relations",
    "ternary_tag_based_relations" or "ternary_mention_based_relations". *)
Theorem missing_field_aborts_run
    (t : task) (load_entity_labels load_relation_labels : list string)
    (gt : ground_truth) (before after : predictions)
    (pmid : string) (pa : predicted_article) :
  acceptable (variant t) (tl load_entity_labels) (tl load_relation_labels)
    gt before ->
  predicted_items (variant t) pa = None ->
  run t load_entity_labels load_relation_labels gt
    (before ++ (pmid, pa) :: after) =
  inl (KeyError_field pmid
         match t with
         | NER => "entities"
         | RE621 => "binary_tag_based_relations"
         | RE622 => "ternary_tag_based_relations"
         | RE623 => "ternary_mention_based_relations"
         end).
Proof.
  intros Hacc Hnone. apply count_returns_iff in Hacc as (c0 & Hc0).
  rewrite count_unfold in Hc0.
  rewrite run_unfold, evaluation_unfold, count_unfold.
  erewrite for_each_raises; [reflexivity | exact Hc0 |].
  unfold score_article. rewrite Hnone. destruct t; reflexivity.
Qed.

Lemma missing_field_aborts_run_witness :
  run NER Sample.entity_vocabulary Sample.relation_vocabulary Sample.gt_D1
    ([("D1", Sample.with_entities [Sample.raw_gene])] ++
     ("D1", Sample.with_binary []) :: []) =
  inl (KeyError_field "D1" "entities").
Proof.
  refine (@missing_field_aborts_run NER Sample.entity_vocabulary
            Sample.relation_vocabulary Sample.gt_D1
            [("D1", Sample.with_entities [Sample.raw_gene])] []
            "D1" (Sample.with_binary []) _ eq_refl).
  constructor; [| constructor].
  exists [Sample.raw_gene]. split; [reflexivity |]. split.
  - constructor; [| constructor]. exists Sample.gene. split; reflexivity.
  - intros _. left. reflexivity.
Defined.




(** X9.  When the loop returns, the predicted and the true-positive
    counters have the keys of the annotated counter, in the same order and
    without repetition, and no count in them is negative. *)
Theorem counters_share_keys
    (t : task) (entity_labels relation_labels : list string)
    (gt : ground_truth) (preds : predictions)
    (c : counters (Key (variant t))) :
  count (variant t) entity_labels relation_labels gt preds = inr c ->
  Dict.keys (predicted c) = Dict.keys (snd (index_ground_truth (variant t) gt)) /\
  Dict.keys (true_positives c) =
    Dict.keys (snd (index_ground_truth (variant t) gt)) /\
  NoDup (Dict.keys (snd (index_ground_truth (variant t) gt))) /\
  forall l, 0 <= tally_of (true_positives c) l <= tally_of (predicted c) l.
Proof.
  intros Hc. destruct (count_seeded _ _ _ _ _ Hc) as [Hp Ht].
  split; [exact Hp |]. split; [exact Ht |].
  split; [apply NoDup_gold_labels |]. intros l. split.
  - destruct (@count_closed_form (variant t) _ _ gt preds c l Hc) as [_ H].
    rewrite H. apply how_many_nonneg.
  - exact (count_dominated _ _ _ _ _ Hc l).
Qed.

Lemma counters_share_keys_witness :
  Dict.keys
    (predicted {| predicted := [("Gene", 1)]; true_positives := [("Gene", 1)] |}) =
  Dict.keys (snd (index_ground_truth (variant NER) Sample.gt_D1)).
Proof.
  exact (proj1 (@counters_share_keys NER (tl Sample.entity_vocabulary) []
                  Sample.gt_D1
                  [("D1", Sample.with_entities [Sample.raw_gene])]
                  {| predicted := [("Gene", 1)];
                     true_positives := [("Gene", 1)] |} eq_refl)).
Defined.

(** X10.  [compute_metrics] hands an exception object back exactly when the
    model type is "re" and the subtask is none of "6.2.1", "6.2.2" and
    "6.2.3"; the object is then the [ValueError] of line 31.  With any
    other model type the subtask is not looked at. *)
Theorem compute_metrics_exception_object_iff
    (load_entity_labels load_relation_labels : list string)
    (gt : ground_truth) (inference_results : predictions)
    (cfg : config) (e : exception) :
  compute_metrics load_entity_labels load_relation_labels gt
    inference_results cfg = inr (ExceptionObject e) <->
  model_type cfg = "re" /\ ~ supported (subtask cfg) /\
  e = ValueError "No matching subtask".
Proof.
  unfold compute_metrics, supported.
  destruct (String.eqb_spec (model_type cfg) "re") as [Hre | Hre].
  - destruct (String.eqb_spec (subtask cfg) "6.2.1") as [H1 | H1].
    { split.
      - destruct (RE_evaluation_subtask_621 _ _ _); discriminate.
      - intros (_ & Hn & _). exfalso. apply Hn. left. exact H1. }
    destruct (String.eqb_spec (subtask cfg) "6.2.2") as [H2 | H2].
    { split.
      - destruct (RE_evaluation_subtask_622 _ _ _ _); discriminate.
      - intros (_ & Hn & _). exfalso. apply Hn. right. left. exact H2. }
    destruct (String.eqb_spec (subtask cfg) "6.2.3") as [H3 | H3].
    { split.
      - destruct (RE_evaluation_subtask_623 _ _ _ _); discriminate.
      - intros (_ & Hn & _). exfalso. apply Hn. right. right. exact H3. }
    split.
    + intros Hx. injection Hx as <-. split; [exact Hre |].
      split; [| reflexivity]. intros [H | [H | H]]; contradiction.
    + intros (_ & _ & ->). reflexivity.
  - split.
    + destruct (NER_evaluation _ _ _); discriminate.
    + intros (H & _). contradiction.
Qed.

Lemma total_of_zero_tallies {K} `{EqDec K} (d : counts K) :
  NoDup (Dict.keys d) -> (forall l, tally_of d l = 0) -> total d = 0.
Proof.
  induction d as [| [k v] d IH]; intros Hnd Hall.
  - reflexivity.
  - inversion Hnd as [| ? ? Hk Hd]; subst. rewrite total_cons.
    assert (Hv : v = 0).
    { specialize (Hall k). unfold tally_of in Hall. simpl in Hall.
      destruct (eq_dec k k); [exact Hall | contradiction]. }
    rewrite Hv, IH; [reflexivity | exact Hd |].
    intros l. specialize (Hall l). unfold tally_of in *. simpl in Hall.
    destruct (eq_dec l k) as [-> | _]; [| exact Hall].
    assert (Hg : Dict.get d k = None) by (apply get_None_keys; exact Hk).
    rewrite Hg. reflexivity.
Qed.

(** X11.  A run that returns metrics without having read any predicted
    item (no document, or documents with empty lists) returns a micro
    precision of exactly +0.0: the smoothing makes 0 / (0 + 1e-10) of what
    would be 0 / 0. *)
Theorem no_predicted_item_zero_precision
    (t : task) (load_entity_labels load_relation_labels : list string)
    (gt : ground_truth) (preds : predictions) (m : metrics) :
  run t load_entity_labels load_relation_labels gt preds = inr m ->
  read_items (variant t) preds = [] ->
  precision_micro m = S754_zero false.
Proof.
  rewrite run_unfold, evaluation_unfold. intros Hrun Hnone.
  apply bind_inr in Hrun as (c & Hc & Hagg).
  pose proof (count_seeded _ _ _ _ _ Hc) as Hseed.
  pose proof (NoDup_gold_labels (variant t) gt) as Hnd.
  assert (Hp : total (predicted c) = 0).
  { apply total_of_zero_tallies; [destruct Hseed as [-> _]; exact Hnd |].
    intros l. destruct (@count_closed_form (variant t) _ _ gt preds c l Hc) as [H _].
    rewrite H, Hnone. destruct (in_dec eq_dec l (gold_labels (variant t) gt));
      reflexivity. }
  assert (Ht : total (true_positives c) = 0).
  { apply total_of_zero_tallies; [destruct Hseed as [_ ->]; exact Hnd |].
    intros l. destruct (@count_closed_form (variant t) _ _ gt preds c l Hc) as [_ H].
    rewrite H, Hnone. reflexivity. }
  rewrite aggregate_seeded in Hagg by assumption.
  destruct (Z.of_nat (List.length (Dict.keys (snd (index_ground_truth (variant t) gt))))
            =? 0); [discriminate |].
  injection Hagg as <-. cbn [precision_micro]. rewrite Hp, Ht. reflexivity.
Qed.

Lemma no_predicted_item_zero_precision_witness :
  exists m,
    run NER Sample.entity_vocabulary Sample.relation_vocabulary Sample.gt_D1
      [("D7", Sample.with_entities [])] = inr m /\
    precision_micro m = S754_zero false.
Proof.
  destruct (run NER Sample.entity_vocabulary Sample.relation_vocabulary
              Sample.gt_D1 [("D7", Sample.with_entities [])]) as [e | m] eqn:Hrun.
  - vm_compute in Hrun. discriminate Hrun.
  - exists m. split; [reflexivity |].
    exact (@no_predicted_item_zero_precision NER Sample.entity_vocabulary
             Sample.relation_vocabulary Sample.gt_D1
             [("D7", Sample.with_entities [])] m Hrun eq_refl).
Defined.

(** * Further properties of the voter *)

Lemma In_set {K V} `{EqDec K} (d : list (K * V)) (k k' : K) (v v' : V) :
  In (k', v') (Dict.set d k v) -> In (k', v') d \/ (k' = k /\ v' = v).
Proof.
  induction d as [| [k0 v0] d IH]; simpl.
  - intros [E | []]. injection E as <- <-. right. split; reflexivity.
  - destruct (eq_dec k k0) as [<- | N]; simpl.
    + intros [E | Hin]; [injection E as <- <-; right; split; reflexivity |].
      left. right. exact Hin.
    + intros [E | Hin]; [left; left; exact E |].
      destruct (IH Hin) as [Hd | Hkv]; [left; right; exact Hd | right; exact Hkv].
Qed.

Lemma relation_key_unsupported (the_subtask paper_id : string) (r : relation) :
  ~ supported the_subtask ->
  relation_key the_subtask paper_id r =
  inl (ValueError ("Unsupported subtask: " ++ the_subtask)%string).
Proof.
  unfold supported, relation_key. intros Hn.
  destruct (String.eqb_spec the_subtask "6.2.1"); [tauto |].
  destruct (String.eqb_spec the_subtask "6.2.2"); [tauto |].
  destruct (String.eqb_spec the_subtask "6.2.3"); [tauto |].
  reflexivity.
Qed.

Section VoterRun.
Variables (the_subtask subtask_name : string).

Local Abbreviation cast :=
  (fun (rv : relation_votes) (pr : string * relation) =>
     cast_vote the_subtask (fst pr) rv (snd pr)).

Lemma cast_votes_sound (ps : list (string * relation)) (rv : relation_votes) :
  for_each cast ps [] = inr rv -> votes_sound the_subtask rv.
Proof.
  intros Hrun.
  apply (@for_each_invariant _ _ (votes_sound the_subtask) cast)
    with (3 := Hrun).
  - intros s [pid r] s' Hs Hstep. unfold cast_vote in Hstep. cbn [fst snd] in Hstep.
    apply bind_inr in Hstep as (k1 & Hk1 & Hs'). injection Hs' as <-.
    intros k votes Hin. unfold append_at in Hin.
    apply In_set in Hin as [Hold | [-> ->]]; [exact (Hs k votes Hold) |].
    pose proof (relation_key_fst _ _ _ Hk1) as Hfst.
    destruct (Dict.get s k1) as [l |] eqn:Hg.
    + apply get_In in Hg. destruct (Hs k1 l Hg) as [_ Hall].
      split; [destruct l; discriminate |].
      intros r' Hr'. apply in_app_or in Hr' as [Hr' | [<- | []]];
        [exact (Hall r' Hr') | rewrite Hfst; exact Hk1].
    + split; [discriminate |].
      intros r' [<- | []]. rewrite Hfst. exact Hk1.
  - intros k votes [].
Qed.

Lemma tally_returns (n : Z) (rv : relation_votes) (res : ensemble_results) :
  (forall k votes, In (k, votes) rv -> votes <> []) ->
  exists out, for_each (tally n) rv res = inr out.
Proof.
  revert res. induction rv as [| [k votes] rv IH]; intros res Hne.
  - exists res. reflexivity.
  - cbn [for_each]. unfold tally at 1.
    assert (Hv : votes <> []) by (apply (Hne k); left; reflexivity).
    assert (Hrest : forall k' v', In (k', v') rv -> v' <> [])
      by (intros k' v' Hin; apply (Hne k'); right; exact Hin).
    destruct (math_ceil_half n <=? Z.of_nat (List.length votes)).
    + destruct votes as [| first rest]; [contradiction |].
      cbn [bind ok]. apply IH. exact Hrest.
    + cbn [bind ok]. apply IH. exact Hrest.
Qed.

Lemma vote_returns_iff (preds : list model_predictions) :
  (exists rv, for_each (vote_model the_subtask subtask_name) preds [] = inr rv)
  <-> well_formed the_subtask preds.
Proof.
  split.
  - intros (rv & Hrun). revert Hrun. apply for_each_inr_Forall.
    intros s mp s'. unfold vote_model. apply for_each_inr_Forall.
    clear. intros s [pid [rels |]] s'; simpl; [| discriminate].
    intros Hrun. exists rels. split; [reflexivity |].
    revert Hrun. apply for_each_inr_Forall.
    intros s0 r s0' Hstep. unfold cast_vote in Hstep.
    apply bind_inr in Hstep as (k & Hk & _). exists k. exact Hk.
  - intros Hwf.
    destruct (@for_each_returns_Forall _ _ (fun _ : relation_votes => True)
                (Forall
                   (fun doc : string * option (list relation) =>
                      exists rels,
                        snd doc = Some rels /\
                        Forall
                          (fun r =>
                             exists k,
                               relation_key the_subtask (fst doc) r = inr k)
                          rels))
                (vote_model the_subtask subtask_name))
      with (xs := preds) (s := @nil (vote_key * list relation))
      as (rv & Hrun & _); [| exact I | exact Hwf | exists rv; exact Hrun].
    intros s mp _ Hmp. unfold vote_model.
    apply (@for_each_returns_Forall _ _ (fun _ : relation_votes => True)
             (fun doc : string * option (list relation) =>
                exists rels,
                  snd doc = Some rels /\
                  Forall
                    (fun r =>
                       exists k, relation_key the_subtask (fst doc) r = inr k)
                    rels));
      [| exact I | exact Hmp].
    clear. intros s [pid content] _ (rels & Hc & Hrels). cbn [fst snd] in *.
    subst content. unfold vote_paper.
    apply (@for_each_returns_Forall _ _ (fun _ : relation_votes => True)
             (fun r => exists k, relation_key the_subtask pid r = inr k));
      [| exact I | exact Hrels].
    intros s0 r _ (k & Hk). unfold cast_vote. rewrite Hk. cbn [bind].
    eexists. split; [reflexivity | exact I].
Qed.

Lemma kept_In (n : Z) (rv : relation_votes) (paper_id : string) (r : relation) :
  In r (kept n rv paper_id) ->
  exists k votes,
    In (k, votes) rv /\ fst k = paper_id /\ In r (firstn 1 votes).
Proof.
  unfold kept. rewrite in_flat_map. intros ([k votes] & Hin & Hr).
  cbn [fst snd] in Hr.
  destruct (math_ceil_half n <=? Z.of_nat (List.length votes));
    [| contradiction].
  destruct (eq_dec (fst k) paper_id) as [Hk | _]; [| contradiction].
  exists k, votes. repeat split; assumption.
Qed.

Lemma kept_NoDup (n : Z) (rv : relation_votes) (paper_id : string) :
  NoDup (Dict.keys rv) -> votes_sound the_subtask rv ->
  NoDup (kept n rv paper_id).
Proof.
  induction rv as [| [k votes] rv IH]; intros Hnd Hsound.
  - constructor.
  - inversion Hnd as [| ? ? Hk Hrest]; subst.
    assert (Hsound' : votes_sound the_subtask rv)
      by (intros k' v' Hin; apply Hsound; right; exact Hin).
    unfold kept. cbn [flat_map fst snd]. fold (kept n rv paper_id).
    apply NoDup_app; [| exact (IH Hrest Hsound') |].
    + destruct ((math_ceil_half n <=? Z.of_nat (List.length votes)) &&
                (if eq_dec (fst k) paper_id then true else false));
        [| constructor].
      destruct votes as [| v vs]; [constructor |].
      cbn [firstn]. constructor; [intros [] | constructor].
    + intros r Hr Hr'.
      destruct (math_ceil_half n <=? Z.of_nat (List.length votes));
        [| contradiction].
      destruct (eq_dec (fst k) paper_id) as [Hfst | _]; [| contradiction].
      cbn [andb] in Hr.
      assert (Hrv : In r votes).
      { destruct votes as [| v vs]; [contradiction |].
        cbn [firstn] in Hr. destruct Hr as [<- | []]. left. reflexivity. }
      destruct (Hsound k votes (or_introl eq_refl)) as [_ Hkey].
      specialize (Hkey r Hrv).
      apply kept_In in Hr' as (k' & votes' & Hin' & Hfst' & Hr').
      destruct (Hsound' k' votes' Hin') as [_ Hkey'].
      assert (Hrv' : In r votes').
      { destruct votes' as [| v vs]; [contradiction |].
        cbn [firstn] in Hr'. destruct Hr' as [<- | []]. left. reflexivity. }
      specialize (Hkey' r Hrv').
      assert (k' = k) by congruence. subst k'.
      apply Hk. change k with (fst (k, votes')). apply in_map. exact Hin'.
Qed.

(** Every set that proposes a key casts a vote for it. *)
Lemma models_at_most_votes (preds : list model_predictions) (k : vote_key) :
  (models_proposing the_subtask k preds <=
   List.length (votes_for the_subtask k preds))%nat.
Proof.
  unfold votes_for, models_proposing, proposals. rewrite length_map.
  induction preds as [| mp preds IH].
  - simpl. lia.
  - cbn [flat_map filter]. rewrite filter_app, length_app.
    destruct (existsb (has_key the_subtask k) (proposals_of mp)) eqn:Hex.
    + apply filter_some_existsb in Hex.
      destruct (filter (has_key the_subtask k) (proposals_of mp));
        [contradiction | simpl in *; lia].
    + lia.
Qed.

Lemma tally_results_sound (n : Z) (rv : relation_votes) (out : ensemble_results) :
  for_each (tally n) rv [] = inr out -> results_sound out.
Proof.
  intros Hrun.
  apply (@for_each_invariant _ _ results_sound (tally n)) with (3 := Hrun).
  - intros s [k votes] s' [Hnd Hne] Hstep. unfold tally in Hstep.
    destruct (math_ceil_half n <=? Z.of_nat (List.length votes)).
    + destruct votes as [| first rest]; [discriminate |].
      injection Hstep as <-. split.
      * unfold append_at. apply NoDup_keys_set. exact Hnd.
      * intros pid l. destruct (eq_dec (fst k) pid) as [<- | N].
        -- rewrite get_append_at_same. intros Hl. injection Hl as <-.
           destruct (Dict.get s (fst k)) as [l0 |];
             [destruct l0; discriminate | discriminate].
        -- rewrite get_append_at_other by exact N. apply Hne.
    + injection Hstep as <-. split; assumption.
  - split; [constructor | intros pid l; discriminate].
Qed.
End VoterRun.

Lemma perform_inr (the_subtask subtask_name : string)
    (preds : list model_predictions) (out : ensemble_results) :
  perform_relation_level_inference the_subtask subtask_name preds = inr out ->
  exists rv,
    for_each (vote_model the_subtask subtask_name) preds [] = inr rv /\
    NoDup (Dict.keys rv) /\
    votes_sound the_subtask rv /\
    for_each (tally (Z.of_nat (List.length preds))) rv [] = inr out /\
    forall paper_id,
      survivors out paper_id = kept (Z.of_nat (List.length preds)) rv paper_id.
Proof.
  unfold perform_relation_level_inference. intros Hrun.
  apply bind_inr in Hrun as (rv & Hvote & Htally).
  exists rv. pose proof (@vote_is_cast the_subtask subtask_name preds [] rv Hvote)
    as Hcast.
  split; [exact Hvote |].
  split; [exact (@cast_NoDup the_subtask (proposals preds) [] rv
                   (NoDup_nil _) Hcast) |].
  split; [exact (@cast_votes_sound the_subtask (proposals preds) rv Hcast) |].
  split; [exact Htally |].
  intros paper_id. rewrite (@tally_survivors _ rv [] out paper_id Htally).
  reflexivity.
Qed.

Lemma perform_returns_iff
    (the_subtask subtask_name : string) (preds : list model_predictions) :
  (exists out,
      perform_relation_level_inference the_subtask subtask_name preds =
      inr out) <->
  well_formed the_subtask preds.
Proof.
  rewrite <- (vote_returns_iff the_subtask subtask_name preds). split.
  - intros (out & Hrun). apply perform_inr in Hrun as (rv & Hvote & _).
    exists rv. exact Hvote.
  - intros (rv & Hvote). unfold perform_relation_level_inference.
    rewrite Hvote. cbn [bind].
    pose proof (@vote_is_cast the_subtask subtask_name preds [] rv Hvote)
      as Hcast.
    pose proof (@cast_votes_sound the_subtask (proposals preds) rv Hcast)
      as Hsound.
    apply tally_returns. intros k votes Hin. apply (Hsound k votes Hin).
Qed.

(** X12.  The voter returns a mapping exactly when every paper of every
    prediction set has its relation list and every relation has the fields
    of the key of the subtask; the second loop never raises. *)
Theorem voter_returns_iff_well_formed
    (the_subtask subtask_name : string) (preds : list model_predictions) :
  (exists out,
      perform_relation_level_inference the_subtask subtask_name preds =
      inr out) <->
  well_formed the_subtask preds.
Proof.
  split.
  - intros Hret. apply (perform_returns_iff the_subtask subtask_name). exact Hret.
  - intros Hwf. apply perform_returns_iff. exact Hwf.
Qed.

(** X13.  With a subtask that is none of "6.2.1", "6.2.2" and "6.2.3" the
    voter returns only when the prediction sets hold no relation at all, and
    what it returns is the empty mapping. *)
Theorem unsupported_subtask_needs_no_relation
    (the_subtask subtask_name : string) (preds : list model_predictions)
    (out : ensemble_results) :
  ~ supported the_subtask ->
  perform_relation_level_inference the_subtask subtask_name preds = inr out ->
  proposals preds = [] /\ out = [].
Proof.
  intros Hn Hrun.
  assert (Hnone : proposals preds = []).
  { assert (Hwf : well_formed the_subtask preds)
      by (apply (perform_returns_iff the_subtask subtask_name);
          exists out; exact Hrun).
    unfold proposals. clear Hrun.
    induction Hwf as [| mp preds Hmp _ IH]; [reflexivity |].
    cbn [flat_map]. rewrite IH, app_nil_r. clear IH.
    unfold proposals_of. induction Hmp as [| [pid content] mp Hdoc _ IH];
      [reflexivity |].
    cbn [flat_map fst snd]. rewrite IH, app_nil_r.
    destruct Hdoc as (rels & Hc & Hrels). cbn [fst snd] in *. subst content.
    destruct Hrels as [| r rels (k & Hk) _]; [reflexivity |].
    rewrite relation_key_unsupported in Hk by exact Hn. discriminate. }
  split; [exact Hnone |].
  apply perform_inr in Hrun as (rv & Hvote & _ & _ & Htally & _).
  apply vote_is_cast in Hvote. rewrite Hnone in Hvote.
  injection Hvote as <-. injection Htally as <-. reflexivity.
Qed.

Lemma unsupported_subtask_needs_no_relation_witness :
  proposals [[("D1", Some [])]; []] = [] /\
  (@nil (string * list relation)) = [].
Proof.
  refine (@unsupported_subtask_needs_no_relation "6.2.4" "x"
            [[("D1", Some [])]; []] [] _ eq_refl).
  intros [H | [H | H]]; discriminate H.
Defined.

(** X14.  Every relation the voter returns for a paper was proposed for
    that paper by one of the prediction sets, and the voter returns it once:
    the list of a paper holds no relation twice. *)
Theorem survivors_are_distinct_proposals
    (the_subtask subtask_name : string) (preds : list model_predictions)
    (out : ensemble_results) (paper_id : string) :
  perform_relation_level_inference the_subtask subtask_name preds = inr out ->
  NoDup (survivors out paper_id) /\
  forall r,
    In r (survivors out paper_id) -> In (paper_id, r) (proposals preds).
Proof.
  intros Hrun. split.
  - destruct (perform_inr _ _ _ Hrun) as (rv & _ & Hnd & Hsound & _ & Hkept).
    rewrite Hkept. apply kept_NoDup with (the_subtask := the_subtask);
      assumption.
  - intros r Hin.
    apply (@survivors_spec the_subtask subtask_name preds out paper_id r Hrun)
      in Hin as (k & Hfst & Hhd & _).
    unfold votes_for in Hhd. apply hd_error_filter in Hhd as (p & Hp & Hkey).
    apply has_key_true in Hkey. cbn [fst snd] in Hkey.
    apply relation_key_fst in Hkey. congruence.
Qed.

Lemma survivors_are_distinct_proposals_witness :
  NoDup (survivors [("D1", [Sample.tags "Gene" "Disease"])] "D1").
Proof.
  exact (proj1 (@survivors_are_distinct_proposals "6.2.1"
                  "binary_tag_based_relations"
                  [[("D1", Some [Sample.tags "Gene" "Disease";
                                 Sample.tags "Gene" "Disease"])]]
                  [("D1", [Sample.tags "Gene" "Disease"])] "D1" eq_refl)).
Defined.

(** X15.  The mapping the voter returns has every paper once, and has a
    paper exactly when one of its relations is retained: a paper whose
    keys all stay below the threshold is not in the mapping at all. *)
Theorem output_papers_have_survivors
    (the_subtask subtask_name : string) (preds : list model_predictions)
    (out : ensemble_results) :
  perform_relation_level_inference the_subtask subtask_name preds = inr out ->
  NoDup (Dict.keys out) /\
  forall paper_id,
    In paper_id (Dict.keys out) <->
    exists k r,
      fst k = paper_id /\
      hd_error (votes_for the_subtask k preds) = Some r /\
      math_ceil_half (Z.of_nat (List.length preds)) <=
      Z.of_nat (List.length (votes_for the_subtask k preds)).
Proof.
  intros Hrun.
  destruct (perform_inr _ _ _ Hrun) as (rv & _ & _ & _ & Htally & _).
  destruct (tally_results_sound _ _ Htally) as [Hnd Hne].
  split; [exact Hnd |]. intros paper_id. split.
  - intros Hin. apply keys_get in Hin as (l & Hg).
    destruct l as [| r l]; [exfalso; exact (Hne _ _ Hg eq_refl) |].
    assert (Hr : In r (survivors out paper_id))
      by (unfold survivors; rewrite Hg; left; reflexivity).
    apply (@survivors_spec the_subtask subtask_name preds out paper_id r Hrun)
      in Hr as (k & Hk).
    exists k, r. exact Hk.
  - intros (k & r & Hk).
    assert (Hr : In r (survivors out paper_id)).
    { apply (@survivors_spec the_subtask subtask_name preds out paper_id r Hrun).
      exists k. exact Hk. }
    unfold survivors in Hr.
    destruct (Dict.get out paper_id) as [l |] eqn:Hg; [| contradiction].
    eapply get_Some_keys. exact Hg.
Qed.

Lemma output_papers_have_survivors_witness :
  NoDup (Dict.keys [("D1", [Sample.tags "Gene" "Disease"])]).
Proof.
  exact (proj1 (@output_papers_have_survivors "6.2.1"
                  "binary_tag_based_relations"
                  [[("D1", Some [Sample.tags "Gene" "Disease"]);
                    ("D2", Some [Sample.tags "Disease" "Gene"])];
                   [("D1", Some [Sample.tags "Gene" "Disease"])];
                   [("D2", Some [])]]
                  [("D1", [Sample.tags "Gene" "Disease"])] eq_refl)).
Defined.

(** X16.  A key that at least ceil(N/2) of the N prediction sets propose
    is retained, with its first-encountered relation. *)
Theorem majority_of_models_is_retained
    (the_subtask subtask_name : string) (preds : list model_predictions)
    (out : ensemble_results) (k : vote_key) (r : relation) :
  perform_relation_level_inference the_subtask subtask_name preds = inr out ->
  math_ceil_half (Z.of_nat (List.length preds)) <=
  Z.of_nat (models_proposing the_subtask k preds) ->
  hd_error (votes_for the_subtask k preds) = Some r ->
  In r (survivors out (fst k)).
Proof.
  intros Hrun Hmaj Hhd.
  apply (@survivors_spec the_subtask subtask_name preds out (fst k) r Hrun).
  exists k. split; [reflexivity |]. split; [exact Hhd |].
  pose proof (models_at_most_votes the_subtask preds k). lia.
Qed.

Lemma majority_of_models_is_retained_witness :
  In (Sample.tags "Gene" "Disease")
     (survivors [("D1", [Sample.tags "Gene" "Disease"])] "D1").
Proof.
  refine (@majority_of_models_is_retained "6.2.1" "binary_tag_based_relations"
            [[("D1", Some [Sample.tags "Gene" "Disease"])];
             [("D1", Some [Sample.tags "Gene" "Disease"])];
             [("D1", Some [Sample.tags "Disease" "Gene"])]]
            [("D1", [Sample.tags "Gene" "Disease"])]
            ("D1", ["Gene"; "Disease"]) (Sample.tags "Gene" "Disease")
            eq_refl _ eq_refl).
  vm_compute. discriminate.
Defined.



(** * Properties of the n-gram rows *)

Lemma split_space_nonempty (s : string) : split_space s <> [].
Proof.
  destruct s as [| c r]; simpl; [discriminate |].
  destruct (Ascii.ascii_dec c " "%char); [discriminate |].
  destruct (split_space r); discriminate.
Qed.

Lemma join_split (s : string) : join_space (split_space s) = s.
Proof.
  induction s as [| c r IH]; [reflexivity |].
  cbn [split_space]. pose proof (split_space_nonempty r) as Hne.
  destruct (Ascii.ascii_dec c " "%char) as [-> | N].
  - destruct (split_space r) as [| w ws]; [contradiction |].
    cbn [join_space] in *. rewrite IH. reflexivity.
  - destruct (split_space r) as [| w ws]; [contradiction |].
    cbn [join_space] in *. destruct ws; rewrite <- IH; reflexivity.
Qed.

Lemma length_split (s : string) :
  List.length (split_space s) = S (spaces s).
Proof.
  induction s as [| c r IH]; [reflexivity |].
  cbn [split_space spaces]. pose proof (split_space_nonempty r) as Hne.
  destruct (Ascii.ascii_dec c " "%char).
  - cbn [List.length]. rewrite IH. reflexivity.
  - destruct (split_space r) as [| w ws]; [contradiction |].
    cbn [List.length] in *. exact IH.
Qed.

Lemma length_windows {X} (n : nat) (ws : list X) :
  List.length (windows n ws) = (List.length ws + 1 - n)%nat.
Proof. unfold windows. rewrite length_map, length_seq. reflexivity. Qed.


Lemma for_each_collect {X Y} (f : X -> Y) (xs : list X) (acc : list Y) :
  for_each (fun rows x => ok (rows ++ [f x])) xs acc = inr (acc ++ map f xs).
Proof.
  revert acc. induction xs as [| x xs IH]; intros acc; simpl.
  - rewrite app_nil_r. reflexivity.
  - rewrite IH, <- app_assoc. reflexivity.
Qed.

Lemma for_each_concat {S X} (body : S -> X -> result S) (xss : list (list X))
    (s : S) :
  for_each (fun s xs => for_each body xs s) xss s =
  for_each body (List.concat xss) s.
Proof.
  revert s. induction xss as [| xs xss IH]; intros s; simpl.
  - reflexivity.
  - rewrite for_each_app. destruct (for_each body xs s); simpl;
      [reflexivity | apply IH].
Qed.

(** X18.  Splitting a text at its spaces and joining the words with a
    space gives the text back, and the words are one more than the
    spaces (consecutive, leading and trailing spaces give empty words). *)
Theorem split_join_round_trip (s : string) :
  join_space (split_space s) = s /\
  List.length (split_space s) = S (spaces s).
Proof. split; [apply join_split | apply length_split]. Qed.


(** X19.  An entity with its text span and its label gives one row per
    window of [n] consecutive lowered words, each with the label: as many
    rows as the words plus one minus [n], none when the text is shorter.
    An entity without label raises only if it has a window; with fewer
    words than [n] it gives no row and its label is not looked up. *)
Theorem entity_rows_are_windows
    (lower : string -> string) (n : nat) (entity : raw_entity) (text : string) :
  text_span entity = Some text ->
  (forall lab,
      label entity = Some lab ->
      entity_rows lower n entity =
        inr (map (fun w => (join_space w, lab))
               (windows n (map lower (split_space text)))) /\
      List.length
        (map (fun w => (join_space w, lab))
           (windows n (map lower (split_space text)))) =
      (S (spaces text) + 1 - n)%nat) /\
  (label entity = None ->
   entity_rows lower n entity =
   if (n <=? S (spaces text))%nat then inl (KeyError "label") else inr []).
Proof.
  intros Htext. unfold entity_rows. rewrite Htext. split.
  - intros lab Hlab. rewrite Hlab. split.
    + apply (for_each_collect (fun w => (join_space w, lab))).
    + rewrite length_map, length_windows, length_map, length_split.
      reflexivity.
  - intros Hnone. rewrite Hnone.
    pose proof (length_windows n (map lower (split_space text))) as Hlen.
    rewrite length_map, length_split in Hlen.
    destruct (windows n (map lower (split_space text))) as [| w ws].
    + cbn [List.length] in Hlen.
      destruct (Nat.leb_spec n (S (spaces text))); [lia | reflexivity].
    + cbn [List.length] in Hlen.
      destruct (Nat.leb_spec n (S (spaces text))); [reflexivity | lia].
Qed.

Lemma entity_rows_are_windows_witness :
  entity_rows (fun w => w) 2
    {| start_idx := None; end_idx := None; location := None;
       text_span := Some "gut microbiota"; label := None |} =
  inl (KeyError "label").
Proof.
  exact (proj2 (@entity_rows_are_windows (fun w => w) 2
                  {| start_idx := None; end_idx := None; location := None;
                     text_span := Some "gut microbiota"; label := None |}
                  "gut microbiota" eq_refl) eq_refl).
Defined.



(** X21.  The rows depend on the files only through the documents they
    hold, in order: the rows of a list of files, and the exception raised
    if any, are those of the one file that holds all their documents. *)
Theorem n_gram_rows_ignore_file_boundaries
    (lower : string -> string) (n : nat)
    (data : list (list (string * option (list raw_entity)))) :
  n_gram_rows lower n data = n_gram_rows lower n [List.concat data].
Proof.
  unfold n_gram_rows. rewrite for_each_concat. cbn [for_each].
  destruct (for_each _ (List.concat data) []); reflexivity.
Qed.
